(** * sonix_flasher2: the Extension-Unit SPI transport of [sonix_burn.exe.c]

    A shallow embedding of [snx_xu_set], [snx_xu_get], [snx_sf_read],
    [snx_open], [snx_close], [snx_dump_firmware] and [main], followed by
    the properties of the transport protocol.

    Conventions.
    - C's unsigned types ([unsigned char], [unsigned short], [unsigned int],
      [size_t]) are [N]; every place where C reduces a value to the width of
      its type is written out with [u16] / [u32].  [int] is [Z].
    - Pointers and handles are [N], with [0] for [NULL].
    - Everything the program does not define itself (libusb, the C library)
      is an external call: the call is appended to a log together with the
      answer that the environment gave, and the environment is an arbitrary
      function of the history and of the call. *)

From Equations Require Import Equations.
From Stdlib Require Import List NArith ZArith Lia Bool String Sorted.
Import ListNotations.

Local Open Scope N_scope.

(** ** Machine integers *)

Definition u16 (x : N) : N := x mod 2 ^ 16.
Definition u32 (x : N) : N := x mod 2 ^ 32.

(** [a + b] and [a - b] on [unsigned int]. *)
Definition add32 (a b : N) : N := u32 (a + b).
Definition sub32 (a b : N) : N := Z.to_N ((Z.of_N a - Z.of_N b) mod 2 ^ 32).

(** ** sonix_burn.exe.h *)

Definition XU_CMD_SPI_READ_SET : N := 0x23.
Definition XU_CMD_SPI_READ_GET : N := 0x24.
Definition XU_CMD_SPI_WRITE_SET : N := 0x25.
Definition XU_CMD_SPI_WRITE_DATA : N := 0x26.

Record snx_device : Type := mk_snx_device {
  ctx : N;           (* libusb_context *        *)
  handle : N;        (* libusb_device_handle *  *)
  vc_interface : N;  (* unsigned char           *)
  xu_id : N          (* unsigned char           *)
}.

(** [memset(dev, 0, sizeof( *dev))] and [snx_device dev = {0}]. *)
Definition dev_zero : snx_device := mk_snx_device 0 0 0 0.

(** ** The outside world *)

Inductive call : Type :=
| libusb_init
| libusb_open_device_with_vid_pid (c vid pid : N)
| libusb_claim_interface (h iface : N)
| libusb_release_interface (h iface : N)
| libusb_close (h : N)
| libusb_exit (c : N)
| libusb_control_transfer
    (h bmRequestType bRequest wValue wIndex : N)
    (data : list N) (wLength timeout : N)
| malloc (size : N)
| free (ptr : N)
| fopen (path mode : string)
| fwrite (data : list N) (size nmemb stream : N)
| fclose (stream : N)
| fprintf_stderr (text : string)
| puts (text : string).

(** What a call gives back: [ret] for an [int] result, [ptr] for a pointer or
    [size_t] result (or the pointer stored through an out parameter), and
    [bytes] for the data the call delivers into a caller's buffer. *)
Record answer : Type := mk_answer {
  ret : Z;
  ptr : N;
  bytes : list N
}.

Definition event : Type := call * answer.
Definition log : Type := list event.
Definition environment : Type := log -> call -> answer.

(** A computation reads and extends the log. *)
Definition M (A : Type) : Type := log -> A * log.

Definition mret {A} (a : A) : M A := fun lg => (a, lg).
Definition mbind {A B} (m : M A) (k : A -> M B) : M B :=
  fun lg => let (a, lg') := m lg in k a lg'.

Declare Scope m_scope.
Delimit Scope m_scope with m.
Notation "x <- m ;; k" := (mbind m (fun x => k))
  (at level 61, m at next level, right associativity) : m_scope.
Notation "m ;; k" := (mbind m (fun _ => k))
  (at level 61, right associativity) : m_scope.

(** ** Buffers *)

(** [memcpy(dst + off, src, |src|)] on a buffer of fixed size: bytes that
    would fall behind the end of [dst] are dropped (the program never
    produces any: [snx_sf_read] keeps [p + chunk] within [length]). *)
Fixpoint blit (off : nat) (src dst : list N) : list N :=
  match dst with
  | [] => []
  | d :: dst' =>
      match off with
      | S off' => d :: blit off' src dst'
      | O => match src with
             | [] => dst
             | s :: src' => s :: blit O src' dst'
             end
      end
  end.

Section Program.

Variable env : environment.

Definition extern (c : call) : M answer :=
  fun lg => let a := env lg c in (a, lg ++ [(c, a)]).

Local Open Scope m_scope.

(** ** sonix_burn.exe.c, lines 15-36 *)

Definition xu_wValue (cs : N) : N := u16 (N.shiftl cs 8).
Definition xu_wIndex (vc_if unit_id : N) : N :=
  u16 (N.lor (N.shiftl unit_id 8) vc_if).

Definition xu_set_request (h vc_if unit_id cs : N) (payload : list N) (len : N)
  : call :=
  libusb_control_transfer h 0x21 0x01 (xu_wValue cs) (xu_wIndex vc_if unit_id)
    (firstn (N.to_nat len) payload) len 3000.

Definition xu_get_request (h vc_if unit_id cs len : N) : call :=
  libusb_control_transfer h 0xA1 0x81 (xu_wValue cs) (xu_wIndex vc_if unit_id)
    [] len 3000.

Definition snx_xu_set (h vc_if unit_id cs : N) (payload : list N) (len : N)
  : M Z :=
  a <- extern (xu_set_request h vc_if unit_id cs payload len) ;;
  mret (ret a).

(** [out] is the caller's buffer and [p] the offset in it at which the
    transfer stores what it receives, at most [len] bytes. *)
Definition snx_xu_get (h vc_if unit_id cs : N) (out : list N) (p len : N)
  : M (Z * list N) :=
  a <- extern (xu_get_request h vc_if unit_id cs len) ;;
  mret (ret a, blit (N.to_nat p) (firstn (N.to_nat len) (bytes a)) out).

(** ** sonix_burn.exe.c, lines 38-65 *)

(** Line 44: [unsigned short chunk = remaining > 1023 ? 1023 : remaining]. *)
Definition chunk_of (remaining : N) : N :=
  u16 (if 1023 <? remaining then 1023 else remaining).

(** Lines 45-51. *)
Definition read_payload (addr chunk : N) : list N :=
  [ N.land (N.shiftr addr 16) 0xFF;
    N.land (N.shiftr addr 8) 0xFF;
    N.land addr 0xFF;
    N.land (N.shiftr chunk 8) 0xFF;
    N.land chunk 0xFF ].

(** Lines 45-59, one pass through the loop body up to the two early
    returns: [Some r] is [return r], [None] falls through to line 60. *)
Definition sf_read_chunk (dev : snx_device) (addr chunk : N)
    (out : list N) (p : N) : M (option Z * list N) :=
  let payload := read_payload addr chunk in
  r <- snx_xu_set (handle dev) (vc_interface dev) (xu_id dev)
         XU_CMD_SPI_READ_SET payload 5 ;;
  if (r <? 0)%Z then mret (Some r, out) else
  g <- snx_xu_get (handle dev) (vc_interface dev) (xu_id dev)
         XU_CMD_SPI_READ_GET out p chunk ;;
  let (r, out') := g in
  if ((r <? 0) || negb (r =? Z.of_N chunk))%Z
  then mret (Some (if (r <? 0)%Z then r else (-1)%Z), out')
  else mret (None, out').

(** The [while (remaining)] loop of lines 43-63; [p] is [p - out]. *)
Equations sf_read_loop (dev : snx_device) (addr remaining p : N)
    (out : list N) (lg : log) : (Z * list N) * log
    by wf (N.to_nat remaining) lt :=
  sf_read_loop dev addr remaining p out lg with N.eq_dec remaining 0 := {
    | left _ => ((0%Z, out), lg)
    | right Hne
        with sf_read_chunk dev addr (chunk_of remaining) out p lg := {
        | ((Some r, out'), lg') => ((r, out'), lg')
        | ((None, out'), lg') =>
            sf_read_loop dev
              (add32 addr (chunk_of remaining))
              (sub32 remaining (chunk_of remaining))
              (p + chunk_of remaining)
              out' lg' } }.
Next Obligation.
  unfold sub32, chunk_of, u16.
  destruct (N.ltb_spec 1023 remaining) as [Hbig | Hsmall].
  - change (1023 mod 2 ^ 16) with 1023.
    destruct (N.lt_ge_cases remaining (2 ^ 32)) as [Hlt | Hge].
    + rewrite Z.mod_small by lia. lia.
    + pose proof (Z.mod_pos_bound (Z.of_N remaining - Z.of_N 1023) (2 ^ 32)
                    ltac:(lia)) as Hb.
      change (2 ^ 32) with 4294967296 in Hge. lia.
  - rewrite N.mod_small by (change (2 ^ 16) with 65536; lia).
    rewrite Z.sub_diag. rewrite Z.mod_0_l by lia. simpl. lia.
Qed.

Definition snx_sf_read (dev : snx_device) (addr length : N) (out : list N)
  : M (Z * list N) :=
  sf_read_loop dev addr length 0 out.

(** ** sonix_burn.exe.c, lines 69-100 *)

(** [libusb_init] stores the new context through its out parameter only when
    it returns 0; [dev] is the session the caller passes in, overwritten by
    the [memset] of line 73. *)
Definition snx_open (dev : snx_device) (vid pid vc_if unit_id : N)
  : M (Z * snx_device) :=
  let dev := dev_zero in
  i <- extern libusb_init ;;
  let dev := if (ret i =? 0)%Z
             then mk_snx_device (ptr i) (handle dev) (vc_interface dev) (xu_id dev)
             else dev in
  if negb (ret i =? 0)%Z then mret ((-1)%Z, dev) else
  o <- extern (libusb_open_device_with_vid_pid (ctx dev) vid pid) ;;
  let dev := mk_snx_device (ctx dev) (ptr o) (vc_interface dev) (xu_id dev) in
  if handle dev =? 0 then
    _ <- extern (libusb_exit (ctx dev)) ;;
    mret ((-1)%Z, dev)
  else
  let dev := mk_snx_device (ctx dev) (handle dev) vc_if (xu_id dev) in
  let dev := mk_snx_device (ctx dev) (handle dev) (vc_interface dev) unit_id in
  _ <- extern (libusb_claim_interface (handle dev) vc_if) ;;
  mret (0%Z, dev).

Definition snx_close (dev : snx_device) : M snx_device :=
  _ <- (if negb (handle dev =? 0) then
          _ <- extern (libusb_release_interface (handle dev) (vc_interface dev)) ;;
          _ <- extern (libusb_close (handle dev)) ;;
          mret tt
        else mret tt) ;;
  _ <- (if negb (ctx dev =? 0) then
          _ <- extern (libusb_exit (ctx dev)) ;;
          mret tt
        else mret tt) ;;
  mret dev_zero.

(** ** sonix_burn.exe.c, lines 102-121 *)

(** The block [malloc] returns holds [size] bytes of indeterminate content:
    whatever the environment put there. *)
Definition fresh_block (a : answer) (size : N) : list N :=
  firstn (N.to_nat size) (bytes a ++ repeat 0 (N.to_nat size)).

Definition snx_dump_firmware (dev : snx_device) (addr length : N)
    (path : string) : M Z :=
  m <- extern (malloc length) ;;
  let buf := ptr m in
  if buf =? 0 then mret (-1)%Z else
  rd <- snx_sf_read dev addr length (fresh_block m length) ;;
  let (r, content) := rd in
  r <- (if (r =? 0)%Z then
          f <- extern (fopen path "wb") ;;
          if negb (ptr f =? 0) then
            _ <- extern (fwrite (firstn (N.to_nat (1 * length)) content)
                           1 length (ptr f)) ;;
            _ <- extern (fclose (ptr f)) ;;
            mret r
          else mret (-1)%Z
        else mret r) ;;
  _ <- extern (free buf) ;;
  mret r.

(** ** sonix_burn.exe.c, lines 125-155 *)

Definition nl : string := String (Ascii.ascii_of_nat 10) EmptyString.

Definition usage (argv0 : string) : string :=
  String.append "Usage: " (String.append argv0 (String.append " dump|read" nl)).

(** [argv0] is [argv[0]] and [args] the arguments after it, so that [argc] is
    [1 + length args]; a hosted C program is not started with [argc = 0].
    The automatic array [buf] of line 144 starts out with indeterminate
    content, which nothing reads: zeros stand for it. *)
Definition main (argv0 : string) (args : list string) : M Z :=
  let argc := N.of_nat (1 + List.length args) in
  if negb (argc =? 2) then
    _ <- extern (fprintf_stderr (usage argv0)) ;;
    mret 1%Z
  else
  o <- snx_open dev_zero 0x0C45 0x6366 0 3 ;;
  let (r, dev) := o in
  if negb (r =? 0)%Z then
    _ <- extern (fprintf_stderr (String.append "Device open failed" nl)) ;;
    mret 1%Z
  else
  let argv1 := nth 0 args EmptyString in
  _ <- (if String.eqb argv1 "dump" then
          d <- snx_dump_firmware dev 0 0x20000 "firmware_dump.bin" ;;
          if (d =? 0)%Z
          then extern (puts "Firmware dumped to firmware_dump.bin")
          else extern (fprintf_stderr (String.append "Dump failed" nl))
        else if String.eqb argv1 "read" then
          rd <- snx_sf_read dev 0 256 (repeat 0 256) ;;
          if (fst rd =? 0)%Z
          then extern (puts "Read 256 bytes OK")
          else extern (fprintf_stderr (String.append "Read failed" nl))
        else extern (fprintf_stderr (String.append "Unknown command" nl))) ;;
  _ <- snx_close dev ;;
  mret 0%Z.

End Program.

Arguments extern env c lg /.

(** ** Reading the log *)

Definition calls (lg : log) : list call := map fst lg.

Definition is_control_transfer (c : call) : bool :=
  match c with
  | libusb_control_transfer _ _ _ _ _ _ _ _ => true
  | _ => false
  end.

(** A USB operation is any call into libusb. *)
Definition is_usb_call (c : call) : bool :=
  match c with
  | libusb_init
  | libusb_open_device_with_vid_pid _ _ _
  | libusb_claim_interface _ _
  | libusb_release_interface _ _
  | libusb_close _
  | libusb_exit _
  | libusb_control_transfer _ _ _ _ _ _ _ _ => true
  | _ => false
  end.

Definition usb_calls (lg : log) : list call := filter is_usb_call (calls lg).
Definition transfers (lg : log) : list call :=
  filter is_control_transfer (calls lg).

(** The Set and the Get that [snx_sf_read] issues for the window that
    starts at [a] and is [c] bytes long. *)
Definition read_set_call (dev : snx_device) (a c : N) : call :=
  xu_set_request (handle dev) (vc_interface dev) (xu_id dev)
    XU_CMD_SPI_READ_SET (read_payload a c) 5.

Definition read_get_call (dev : snx_device) (c : N) : call :=
  xu_get_request (handle dev) (vc_interface dev) (xu_id dev)
    XU_CMD_SPI_READ_GET c.

Definition window_calls (dev : snx_device) (w : N * N) : list call :=
  [read_set_call dev (fst w) (snd w); read_get_call dev (snd w)].

(** ** The runs of [snx_sf_read]

    [read_run dev addr remaining delta r]: entered with the running address
    [addr] and [remaining] bytes to go, the loop of [snx_sf_read] appends
    the events [delta] to the log and the function returns [r]. *)
Inductive read_run (dev : snx_device) : N -> N -> list event -> Z -> Prop :=
| run_done : forall addr,
    read_run dev addr 0 [] 0%Z
| run_set_failed : forall addr remaining s,
    remaining <> 0 ->
    (ret s < 0)%Z ->
    read_run dev addr remaining
      [(read_set_call dev addr (chunk_of remaining), s)] (ret s)
| run_get_failed : forall addr remaining s g,
    remaining <> 0 ->
    (0 <= ret s)%Z ->
    (ret g < 0 \/ ret g <> Z.of_N (chunk_of remaining))%Z ->
    read_run dev addr remaining
      [(read_set_call dev addr (chunk_of remaining), s);
       (read_get_call dev (chunk_of remaining), g)]
      (if (ret g <? 0)%Z then ret g else (-1)%Z)
| run_next : forall addr remaining s g delta r,
    remaining <> 0 ->
    (0 <= ret s)%Z ->
    ret g = Z.of_N (chunk_of remaining) ->
    read_run dev (add32 addr (chunk_of remaining))
      (sub32 remaining (chunk_of remaining)) delta r ->
    read_run dev addr remaining
      ((read_set_call dev addr (chunk_of remaining), s)
       :: (read_get_call dev (chunk_of remaining), g) :: delta) r.

(** ** The chunk plan of the specification

    "chunk = min(remaining, 1023)" taken [ceil(length / 1023)] times from
    [address] on: window [k] starts [1023 * k] bytes after [address]. *)
Definition spec_chunk_count (length : N) : N := (length + 1022) / 1023.

Definition spec_chunk_plan (address length : N) : list (N * N) :=
  map (fun k => let k := N.of_nat k in
                (address + 1023 * k, N.min 1023 (length - 1023 * k)))
      (seq 0 (N.to_nat (spec_chunk_count length))).

(** Windows that follow each other without a gap, from [a] on. *)
Fixpoint contiguous_from (a : N) (ws : list (N * N)) : Prop :=
  match ws with
  | [] => True
  | w :: ws' => fst w = a /\ contiguous_from (a + snd w) ws'
  end.

Definition total_size (ws : list (N * N)) : N :=
  fold_right N.add 0 (map snd ws).

(** ** What is on the wire

    A big-endian field, and the window a Set carries in its five bytes. *)
Definition big_endian (field : list N) : N :=
  fold_left (fun acc b => acc * 256 + b) field 0.

Definition wire_window (c : call) : option (N * N) :=
  match c with
  | libusb_control_transfer _ ty _ _ _ [a2; a1; a0; l1; l0] _ _ =>
      if ty =? 0x21 then Some (big_endian [a2; a1; a0], big_endian [l1; l0])
      else None
  | _ => None
  end.

Definition wire_windows (cs : list call) : list (N * N) :=
  flat_map (fun c => match wire_window c with
                     | Some w => [w]
                     | None => []
                     end) cs.

(** [x] as [n] bytes, most significant byte first. *)
Fixpoint to_big_endian (n : nat) (x : N) : list N :=
  match n with
  | O => []
  | S n' => to_big_endian n' (x / 256) ++ [x mod 256]
  end.

(** The frames of the wire protocol as the specification words them:
    bmRequestType and bRequest by direction, wValue the Control Selector in
    the upper byte, wIndex the unit above the interface, 3000 ms. *)
Definition set_frame (dev : snx_device) (cs : N) (payload : list N) (len : N)
  : call :=
  libusb_control_transfer (handle dev) 0x21 0x01 (N.shiftl cs 8)
    (N.lor (N.shiftl (xu_id dev) 8) (vc_interface dev)) payload len 3000.

Definition get_frame (dev : snx_device) (cs len : N) : call :=
  libusb_control_transfer (handle dev) 0xA1 0x81 (N.shiftl cs 8)
    (N.lor (N.shiftl (xu_id dev) 8) (vc_interface dev)) [] len 3000.

(** A sequence of calls is framed as a read from [addr] on: each SPI-READ-SET
    carries the low 24 bits of the running address and a chunk length of at
    most 1023 in five bytes, and the transfer after it is the SPI-READ-GET
    for that many bytes. *)
Fixpoint read_framing (dev : snx_device) (addr : N) (cs : list call) : Prop :=
  match cs with
  | [] => True
  | s :: rest =>
      exists chunk,
        1 <= chunk <= 1023
        /\ s = set_frame dev 0x23
                 (to_big_endian 3 (addr mod 2 ^ 24) ++ to_big_endian 2 chunk) 5
        /\ match rest with
           | [] => True
           | g :: rest' =>
               g = get_frame dev 0x24 chunk
               /\ read_framing dev (add32 addr chunk) rest'
           end
  end.

(** The number of bytes a control transfer asks for, and its timeout. *)
Definition transfer_size (c : call) : option (N * N) :=
  match c with
  | libusb_control_transfer _ _ _ _ _ _ wLength timeout =>
      Some (wLength, timeout)
  | _ => None
  end.

Definition within_limits (c : call) : Prop :=
  exists wLength, transfer_size c = Some (wLength, 3000) /\ wLength <= 1023.

(** Sets and Gets in the log, by direction; what a Get asked for and how
    many bytes the Gets of a log brought in. *)
Definition transfer_type (c : call) : option N :=
  match c with
  | libusb_control_transfer _ ty _ _ _ _ _ _ => Some ty
  | _ => None
  end.

Definition is_set (e : event) : Prop := transfer_type (fst e) = Some 0x21.
Definition is_get (e : event) : Prop := transfer_type (fst e) = Some 0xA1.

Definition requested (e : event) : Z :=
  match transfer_size (fst e) with
  | Some (wLength, _) => Z.of_N wLength
  | None => 0
  end.

Definition get_bytes (e : event) : Z :=
  match transfer_type (fst e) with
  | Some ty => if ty =? 0xA1 then ret (snd e) else 0%Z
  | None => 0%Z
  end.

Definition received (lg : log) : Z := fold_right Z.add 0%Z (map get_bytes lg).

(** The messages of [main], and the log after [c] has been called. *)
Definition msg_open_failed : call :=
  fprintf_stderr (String.append "Device open failed" nl).
Definition msg_unknown : call :=
  fprintf_stderr (String.append "Unknown command" nl).
Definition msg_dump_ok : call := puts "Firmware dumped to firmware_dump.bin".
Definition msg_dump_failed : call :=
  fprintf_stderr (String.append "Dump failed" nl).
Definition msg_read_ok : call := puts "Read 256 bytes OK".
Definition msg_read_failed : call :=
  fprintf_stderr (String.append "Read failed" nl).

Definition after_call (env : environment) (c : call) (lg : log) : log :=
  lg ++ [(c, env lg c)].

(** ** What the library holds

    The state of libusb as the log tells it: a context is live from the
    [libusb_init] that returned it with code 0 until [libusb_exit]; a handle
    is open from the [libusb_open_device_with_vid_pid] that returned it until
    [libusb_close]; an interface is claimed from a [libusb_claim_interface]
    that returned 0 until it is released or its handle is closed. *)
Definition context_live (c : N) (lg : log) : bool :=
  fold_left
    (fun live e =>
       match e with
       | (libusb_init, a) =>
           if ((ret a =? 0)%Z && (ptr a =? c))%bool then true else live
       | (libusb_exit c', _) => if c' =? c then false else live
       | _ => live
       end) lg false.

Definition handle_open (h : N) (lg : log) : bool :=
  fold_left
    (fun open e =>
       match e with
       | (libusb_open_device_with_vid_pid _ _ _, a) =>
           if (negb (ptr a =? 0) && (ptr a =? h))%bool then true else open
       | (libusb_close h', _) => if h' =? h then false else open
       | _ => open
       end) lg false.

Definition iface_claimed (h iface : N) (lg : log) : bool :=
  fold_left
    (fun claimed e =>
       match e with
       | (libusb_claim_interface h' i', a) =>
           if ((h' =? h) && (i' =? iface) && (ret a =? 0)%Z)%bool
           then true else claimed
       | (libusb_release_interface h' i', a) =>
           if ((h' =? h) && (i' =? iface) && (ret a =? 0)%Z)%bool
           then false else claimed
       | (libusb_close h', _) => if h' =? h then false else claimed
       | _ => claimed
       end) lg false.

(** The two states of the session invariant. *)
Definition fully_closed (dev : snx_device) : Prop :=
  ctx dev = 0 /\ handle dev = 0.

Definition fully_open (dev : snx_device) (lg : log) : Prop :=
  ctx dev <> 0 /\ handle dev <> 0
  /\ context_live (ctx dev) lg = true
  /\ handle_open (handle dev) lg = true
  /\ iface_claimed (handle dev) (vc_interface dev) lg = true.

(** ** Environments of the examples *)

(** Every call succeeds; a transfer moves as many bytes as it was asked to. *)
Definition ideal_env : environment := fun _ c =>
  match c with
  | libusb_init => mk_answer 0 0x1000 []
  | libusb_open_device_with_vid_pid _ _ _ => mk_answer 0 0x2000 []
  | libusb_control_transfer _ _ _ _ _ _ wLength _ =>
      mk_answer (Z.of_N wLength) 0 (repeat 0xA5 (N.to_nat wLength))
  | malloc _ => mk_answer 0 0x3000 []
  | fopen _ _ => mk_answer 0 0x4000 []
  | fwrite _ _ nmemb _ => mk_answer 0 nmemb []
  | _ => mk_answer 0 0 []
  end.

(** [ideal_env], except on the calls for which [patch] has its own answer. *)
Definition patched (patch : call -> option answer) : environment := fun lg c =>
  match patch c with
  | Some a => a
  | None => ideal_env lg c
  end.

(** Every host-to-device transfer times out (LIBUSB_ERROR_TIMEOUT). *)
Definition set_timeout_env : environment :=
  patched (fun c => match c with
                    | libusb_control_transfer _ ty _ _ _ _ _ _ =>
                        if ty =? 0x21 then Some (mk_answer (-7) 0 []) else None
                    | _ => None
                    end).

(** Every device-to-host transfer comes back one byte short. *)
Definition short_get_env : environment :=
  patched (fun c => match c with
                    | libusb_control_transfer _ ty _ _ _ _ wLength _ =>
                        if ty =? 0xA1
                        then Some (mk_answer (Z.of_N wLength - 1) 0
                                     (repeat 0xA5 (N.to_nat wLength - 1)))
                        else None
                    | _ => None
                    end).

(** No camera is attached: the device is not found. *)
Definition no_device_env : environment :=
  patched (fun c => match c with
                    | libusb_open_device_with_vid_pid _ _ _ =>
                        Some (mk_answer 0 0 [])
                    | _ => None
                    end).

(** Another driver holds the interface (LIBUSB_ERROR_BUSY). *)
Definition busy_interface_env : environment :=
  patched (fun c => match c with
                    | libusb_claim_interface _ _ => Some (mk_answer (-6) 0 [])
                    | _ => None
                    end).

(** The disk is full: [fwrite] writes nothing. *)
Definition disk_full_env : environment :=
  patched (fun c => match c with
                    | fwrite _ _ _ _ => Some (mk_answer 0 0 [])
                    | _ => None
                    end).

(** An open session on the camera. *)
Definition camera : snx_device := mk_snx_device 0x1000 0x2000 0 3.

(** ** Data, files and the heap in the log *)

(** The bytes a Get brought in. *)
Definition get_data (e : event) : list N :=
  match transfer_type (fst e) with
  | Some ty => if ty =? 0xA1 then bytes (snd e) else []
  | None => []
  end.

(** libusb's contract for the result of a control transfer: a result that
    is not negative is the number of bytes transferred. *)
Definition full_delivery (env : environment) : Prop :=
  forall lg c,
    is_control_transfer c = true ->
    (0 <= ret (env lg c))%Z ->
    Z.of_nat (List.length (bytes (env lg c))) = ret (env lg c).

Definition is_file_call (c : call) : bool :=
  match c with
  | fopen _ _ | fwrite _ _ _ _ | fclose _ => true
  | _ => false
  end.

Definition is_heap_call (c : call) : bool :=
  match c with
  | malloc _ | free _ => true
  | _ => false
  end.

Definition file_calls (lg : log) : list call := filter is_file_call (calls lg).
Definition heap_calls (lg : log) : list call := filter is_heap_call (calls lg).

(** The number of bytes the command [cmd] of [main] reads from address 0
    (lines 139 and 145). *)
Definition command_length (cmd : string) : N :=
  if String.eqb cmd "dump" then 0x20000
  else if String.eqb cmd "read" then 256
  else 0.

(** * Properties *)

Section Runs.

Variable env : environment.

Lemma sf_read_chunk_eq dev addr chunk out p lg :
  let set := read_set_call dev addr chunk in
  let s := env lg set in
  let lg1 := lg ++ [(set, s)] in
  let get := read_get_call dev chunk in
  let g := env lg1 get in
  let out' := blit (N.to_nat p) (firstn (N.to_nat chunk) (bytes g)) out in
  sf_read_chunk env dev addr chunk out p lg =
  if (ret s <? 0)%Z then ((Some (ret s), out), lg1)
  else if ((ret g <? 0) || negb (ret g =? Z.of_N chunk))%Z
       then ((Some (if (ret g <? 0)%Z then ret g else (-1)%Z), out'),
             lg1 ++ [(get, g)])
       else ((None, out'), lg1 ++ [(get, g)]).
Proof.
  cbv zeta. unfold sf_read_chunk, snx_xu_set, snx_xu_get, mbind, mret, extern.
  fold (read_set_call dev addr chunk). fold (read_get_call dev chunk).
  destruct (ret (env lg (read_set_call dev addr chunk)) <? 0)%Z; [reflexivity|].
  match goal with |- context [if ?b then _ else _] => destruct b end;
    reflexivity.
Qed.

Lemma sf_read_loop_run dev addr remaining p out lg :
  exists delta,
    snd (sf_read_loop env dev addr remaining p out lg) = lg ++ delta /\
    read_run dev addr remaining delta
      (fst (fst (sf_read_loop env dev addr remaining p out lg))).
Proof.
  funelim (sf_read_loop env dev addr remaining p out lg).
  - exists []. cbn. rewrite app_nil_r. subst. split; [reflexivity | constructor].
  - rewrite sf_read_chunk_eq in Heq.
    destruct (Z.ltb_spec (ret (env lg (read_set_call dev addr (chunk_of remaining)))) 0).
    + inversion Heq; subst. eexists. split; [reflexivity|].
      cbn. now apply run_set_failed.
    + match type of Heq with context [if ?b then _ else _] =>
        destruct b eqn:Hb end; [|discriminate].
      inversion Heq; subst. eexists. split; [cbn; rewrite <- app_assoc; reflexivity|].
      cbn. apply run_get_failed; [assumption | assumption |].
      apply orb_true_iff in Hb. destruct Hb as [Hb | Hb].
      * left. now apply Z.ltb_lt.
      * right. apply negb_true_iff in Hb. now apply Z.eqb_neq.
  - rewrite sf_read_chunk_eq in Heq.
    destruct (Z.ltb_spec (ret (env lg (read_set_call dev addr (chunk_of remaining)))) 0);
      [discriminate|].
    match type of Heq with context [if ?b then _ else _] =>
      destruct b eqn:Hb end; [discriminate|].
    inversion Heq; subst. clear Heq.
    destruct H as [delta [Hlog Hrun]].
    eexists. split.
    + rewrite Hlog. rewrite <- !app_assoc. cbn. reflexivity.
    + apply orb_false_iff in Hb. destruct Hb as [_ Hb].
      apply negb_false_iff in Hb. apply Z.eqb_eq in Hb.
      apply run_next; assumption.
Qed.

Lemma snx_sf_read_run dev addr length out lg :
  exists delta,
    snd (snx_sf_read env dev addr length out lg) = lg ++ delta /\
    read_run dev addr length delta
      (fst (fst (snx_sf_read env dev addr length out lg))).
Proof. apply sf_read_loop_run. Qed.

End Runs.

(** ** Arithmetic of the loop variables *)

Lemma chunk_of_small remaining :
  remaining <= 1023 -> chunk_of remaining = remaining.
Proof.
  intros H. unfold chunk_of, u16.
  destruct (N.ltb_spec 1023 remaining); [lia|].
  apply N.mod_small. change (2 ^ 16) with 65536. lia.
Qed.

Lemma chunk_of_big remaining :
  1023 < remaining -> chunk_of remaining = 1023.
Proof.
  intros H. unfold chunk_of, u16.
  destruct (N.ltb_spec 1023 remaining); [reflexivity | lia].
Qed.

Lemma chunk_of_min remaining : chunk_of remaining = N.min 1023 remaining.
Proof.
  destruct (N.le_gt_cases remaining 1023).
  - rewrite chunk_of_small by assumption. lia.
  - rewrite chunk_of_big by assumption. lia.
Qed.

Lemma chunk_of_bounds remaining :
  remaining <> 0 -> 1 <= chunk_of remaining <= 1023.
Proof. rewrite chunk_of_min. lia. Qed.

Lemma sub32_exact a b : b <= a -> a < 2 ^ 32 -> sub32 a b = a - b.
Proof.
  intros Hle Hlt. unfold sub32.
  change (2 ^ 32) with 4294967296 in Hlt.
  rewrite Z.mod_small by (change (2 ^ 32)%Z with 4294967296%Z; lia). lia.
Qed.

Lemma add32_exact a b : a + b < 2 ^ 32 -> add32 a b = a + b.
Proof. intros H. unfold add32, u32. now apply N.mod_small. Qed.

(** ** The chunk plan *)

Lemma spec_chunk_count_step remaining :
  remaining <> 0 ->
  spec_chunk_count remaining =
  N.succ (spec_chunk_count (remaining - chunk_of remaining)).
Proof.
  intros Hne. unfold spec_chunk_count. rewrite chunk_of_min.
  destruct (N.le_gt_cases remaining 1023) as [Hs | Hb].
  - replace (remaining - N.min 1023 remaining) with 0 by lia.
    change ((0 + 1022) / 1023) with 0.
    symmetry. apply N.div_unique with (r := remaining - 1); lia.
  - replace (remaining - N.min 1023 remaining) with (remaining - 1023) by lia.
    replace (remaining + 1022) with (remaining - 1023 + 1022 + 1 * 1023) by lia.
    rewrite N.div_add by lia. lia.
Qed.

Lemma spec_chunk_plan_0 address : spec_chunk_plan address 0 = [].
Proof. reflexivity. Qed.

Lemma spec_chunk_plan_step address remaining :
  remaining <> 0 ->
  spec_chunk_plan address remaining =
  (address, chunk_of remaining)
  :: spec_chunk_plan (address + chunk_of remaining)
       (remaining - chunk_of remaining).
Proof.
  intros Hne. unfold spec_chunk_plan at 1.
  rewrite spec_chunk_count_step by assumption.
  rewrite N2Nat.inj_succ. cbn [seq map].
  f_equal.
  - rewrite chunk_of_min. f_equal; lia.
  - rewrite <- seq_shift, map_map. unfold spec_chunk_plan.
    destruct (N.le_gt_cases remaining 1023) as [Hs | Hb].
    + rewrite chunk_of_small by assumption.
      rewrite N.sub_diag. reflexivity.
    + rewrite chunk_of_big by assumption.
      apply map_ext. intros k. cbv zeta. f_equal; lia.
Qed.

Lemma spec_chunk_plan_length address length :
  List.length (spec_chunk_plan address length)
  = N.to_nat (spec_chunk_count length).
Proof. unfold spec_chunk_plan. now rewrite length_map, length_seq. Qed.

Lemma spec_chunk_count_ceil length :
  0 < length ->
  1023 * (spec_chunk_count length - 1) < length
  /\ length <= 1023 * spec_chunk_count length.
Proof.
  intros Hpos. unfold spec_chunk_count.
  pose proof (N.div_mod (length + 1022) 1023 ltac:(lia)) as Hdm.
  pose proof (N.mod_lt (length + 1022) 1023 ltac:(lia)) as Hm.
  set (q := (length + 1022) / 1023) in *.
  set (r := (length + 1022) mod 1023) in *.
  clearbody q r. lia.
Qed.

Lemma spec_chunk_plan_shape remaining :
  forall address,
    contiguous_from address (spec_chunk_plan address remaining)
    /\ total_size (spec_chunk_plan address remaining) = remaining
    /\ Forall (fun w => 1 <= snd w <= 1023) (spec_chunk_plan address remaining).
Proof.
  induction remaining as [remaining IH] using (well_founded_induction N.lt_wf_0).
  intros address.
  destruct (N.eq_dec remaining 0) as [-> | Hne].
  - rewrite spec_chunk_plan_0. cbn. auto.
  - rewrite spec_chunk_plan_step by assumption.
    pose proof (chunk_of_bounds remaining Hne) as Hb.
    pose proof (chunk_of_min remaining) as Hm.
    destruct (IH (remaining - chunk_of remaining) ltac:(lia)
                 (address + chunk_of remaining)) as [Hc [Ht Hf]].
    repeat split.
    + exact Hc.
    + unfold total_size in *. cbn. rewrite Ht. lia.
    + constructor; [exact Hb | exact Hf].
Qed.

Lemma contiguous_sorted ws :
  forall a,
    contiguous_from a ws ->
    Forall (fun w => 1 <= snd w <= 1023) ws ->
    Forall (fun w => a <= fst w) ws
    /\ StronglySorted (fun w w' => fst w + snd w <= fst w') ws
    /\ StronglySorted N.lt (map fst ws).
Proof.
  induction ws as [| w ws IH]; intros a Hc Hf.
  - repeat split; constructor.
  - destruct Hc as [Hw Hc]. inversion Hf as [| ? ? Hsz Hf']; subst.
    destruct (IH _ Hc Hf') as [Hlow [Hgap Hinc]].
    repeat split.
    + constructor; [lia|].
      eapply Forall_impl; [| exact Hlow]. cbn. intros; lia.
    + constructor; [exact Hgap | exact Hlow].
    + cbn. constructor; [exact Hinc|].
      apply Forall_map. eapply Forall_impl; [| exact Hlow]. cbn. intros; lia.
Qed.

(** ** The five bytes of a Set *)

(** Names the quotient and the remainder of [x] by the constant [d]. *)
Ltac divmod x d q r :=
  let Hd := fresh "Hd" in
  let Hm := fresh "Hm" in
  pose proof (N.div_mod x d ltac:(lia)) as Hd;
  pose proof (N.mod_lt x d ltac:(lia)) as Hm;
  set (q := x / d) in *; set (r := x mod d) in *;
  clearbody r.

Lemma land_0xFF x : N.land x 0xFF = x mod 256.
Proof. change 0xFF with (N.ones 8). apply N.land_ones. Qed.

Lemma read_payload_bytes addr chunk :
  read_payload addr chunk =
  [ (addr / 65536) mod 256; (addr / 256) mod 256; addr mod 256;
    (chunk / 256) mod 256; chunk mod 256 ].
Proof.
  unfold read_payload. rewrite !land_0xFF, !N.shiftr_div_pow2. reflexivity.
Qed.

Lemma big_endian_3 x :
  big_endian [(x / 65536) mod 256; (x / 256) mod 256; x mod 256] = x mod 2 ^ 24.
Proof.
  unfold big_endian. cbn [fold_left]. change (2 ^ 24) with 16777216.
  divmod x 65536 q2 r2. divmod q2 256 q2' b2.
  divmod x 256 q1 b0. divmod q1 256 q1' b1.
  divmod x 16777216 q r. lia.
Qed.

Lemma big_endian_2 x :
  big_endian [(x / 256) mod 256; x mod 256] = x mod 2 ^ 16.
Proof.
  unfold big_endian. cbn [fold_left]. change (2 ^ 16) with 65536.
  divmod x 256 q1 b0. divmod q1 256 q1' b1. divmod x 65536 q r. lia.
Qed.

Lemma wire_window_set dev a c :
  wire_window (read_set_call dev a c) = Some (a mod 2 ^ 24, c mod 2 ^ 16).
Proof.
  unfold read_set_call, xu_set_request. rewrite read_payload_bytes.
  change (N.to_nat 5) with 5%nat. cbn [wire_window firstn].
  change (0x21 =? 0x21) with true. cbv iota.
  now rewrite big_endian_3, big_endian_2.
Qed.

Lemma wire_window_get dev c : wire_window (read_get_call dev c) = None.
Proof. reflexivity. Qed.

Lemma wire_windows_plan dev ws :
  Forall (fun w => fst w < 2 ^ 24 /\ snd w < 2 ^ 16) ws ->
  wire_windows (flat_map (window_calls dev) ws) = ws.
Proof.
  induction 1 as [| w ws [Ha Hc] _ IH]; [reflexivity|].
  cbn [flat_map window_calls app]. unfold wire_windows in *.
  cbn [flat_map]. rewrite wire_window_set, wire_window_get. cbn [app].
  rewrite IH, !N.mod_small by assumption. now destruct w.
Qed.

(** ** Successful runs follow the chunk plan *)

Lemma read_run_success_calls dev addr remaining delta r :
  read_run dev addr remaining delta r ->
  r = 0%Z ->
  remaining < 2 ^ 32 ->
  addr + remaining <= 2 ^ 32 ->
  calls delta = flat_map (window_calls dev) (spec_chunk_plan addr remaining).
Proof.
  induction 1 as [addr | addr remaining s Hne Hs | addr remaining s g Hne Hs Hg
                 | addr remaining s g delta r Hne Hs Hg Hrun IH];
    intros Hr Hrem Hend.
  - reflexivity.
  - lia.
  - destruct (Z.ltb_spec (ret g) 0); lia.
  - pose proof (chunk_of_bounds remaining Hne) as Hb.
    pose proof (chunk_of_min remaining) as Hm.
    rewrite spec_chunk_plan_step by assumption.
    cbn [calls map fst flat_map window_calls snd app]. do 2 f_equal.
    rewrite sub32_exact in IH by lia.
    change (2 ^ 32) with 4294967296 in *.
    destruct (N.eq_dec (remaining - chunk_of remaining) 0) as [Hz | Hnz].
    + rewrite Hz in *. rewrite spec_chunk_plan_0 in *.
      apply IH; [assumption | lia |].
      unfold add32, u32.
      pose proof (N.mod_lt (addr + chunk_of remaining) (2 ^ 32) ltac:(lia)).
      change (2 ^ 32) with 4294967296 in *. lia.
    + rewrite add32_exact in IH
        by (change (2 ^ 32) with 4294967296; lia).
      apply IH; [assumption | lia | lia].
Qed.

Section ChunkPlan.

Variable env : environment.

(** C1, as amended: a read of [length > 0] bytes that returns 0 and whose
    range ends within the 24-bit address space issues exactly the Set/Get
    pairs of the chunk plan, and nothing else; the plan has
    [ceil(length / 1023)] windows, they are the ones the Sets carry on the
    wire, they start at [addr], follow each other without gap or overlap in
    strictly increasing order, hold between 1 and 1023 bytes each and
    [length] bytes together; for [length <= 1023] there is one pair. *)
Theorem snx_sf_read_chunk_plan dev addr length out lg :
  0 < length ->
  addr + length <= 2 ^ 24 ->
  fst (fst (snx_sf_read env dev addr length out lg)) = 0%Z ->
  let issued := calls (snd (snx_sf_read env dev addr length out lg)) in
  let plan := spec_chunk_plan addr length in
  issued = calls lg ++ flat_map (window_calls dev) plan
  /\ wire_windows (flat_map (window_calls dev) plan) = plan
  /\ List.length plan = N.to_nat (spec_chunk_count length)
  /\ (1023 * (spec_chunk_count length - 1) < length
      /\ length <= 1023 * spec_chunk_count length)
  /\ contiguous_from addr plan
  /\ StronglySorted N.lt (map fst plan)
  /\ StronglySorted (fun w w' => fst w + snd w <= fst w') plan
  /\ Forall (fun w => 1 <= snd w <= 1023) plan
  /\ total_size plan = length
  /\ (length <= 1023 -> plan = [(addr, length)]).
Proof.
  intros Hpos Hend Hok issued plan. subst issued plan.
  change (2 ^ 24) with 16777216 in Hend.
  destruct (snx_sf_read_run env dev addr length out lg) as [delta [Hlog Hrun]].
  destruct (spec_chunk_plan_shape length addr) as [Hc [Ht Hf]].
  destruct (contiguous_sorted _ _ Hc Hf) as [Hlow [Hgap Hinc]].
  rewrite Hlog, Hok in *.
  repeat split; try assumption.
  - unfold calls at 1. rewrite map_app. fold (calls lg) (calls delta).
    f_equal. eapply read_run_success_calls; eauto.
    + change (2 ^ 32) with 4294967296. lia.
    + change (2 ^ 32) with 4294967296. lia.
  - apply wire_windows_plan.
    assert (Hin : forall w, In w (spec_chunk_plan addr length) ->
                            fst w + snd w <= addr + length).
    { unfold spec_chunk_plan. intros w Hw. apply in_map_iff in Hw.
      destruct Hw as [k [<- Hk]]. apply in_seq in Hk.
      pose proof (spec_chunk_count_ceil length Hpos) as Hceil.
      cbn [fst snd]. lia. }
    apply Forall_forall. intros w Hw.
    pose proof (Hin w Hw). rewrite Forall_forall in Hf.
    pose proof (Hf w Hw).
    change (2 ^ 24) with 16777216. change (2 ^ 16) with 65536. lia.
  - apply spec_chunk_plan_length.
  - apply spec_chunk_count_ceil; assumption.
  - apply spec_chunk_count_ceil; assumption.
  - intros Hsmall.
    rewrite spec_chunk_plan_step by lia.
    rewrite chunk_of_small by assumption.
    now rewrite N.sub_diag, spec_chunk_plan_0.
Qed.

End ChunkPlan.

(** [Read(address = 0, length = 2500)] on a device that answers every
    transfer in full: three Set/Get pairs, for the windows
    [(0, 1023)], [(1023, 1023)] and [(2046, 454)]. *)
Lemma snx_sf_read_chunk_plan_2500 :
  calls (snd (snx_sf_read ideal_env camera 0 2500 (repeat 0 2500) []))
  = flat_map (window_calls camera) [(0, 1023); (1023, 1023); (2046, 454)]
  /\ wire_windows
       (calls (snd (snx_sf_read ideal_env camera 0 2500 (repeat 0 2500) [])))
     = [(0, 1023); (1023, 1023); (2046, 454)].
Proof.
  pose proof (snx_sf_read_chunk_plan ideal_env camera 0 2500 (repeat 0 2500) []
                ltac:(lia) ltac:(vm_compute; discriminate)
                ltac:(vm_compute; reflexivity)) as H.
  cbv zeta in H. destruct H as [Hissued [Hwire _]].
  split.
  - rewrite Hissued. vm_compute. reflexivity.
  - rewrite Hissued. vm_compute. reflexivity.
Defined.

(** C1 as stated fails: a Set that times out ends the read after one
    lone Set, and a range that crosses the end of the 24-bit address space
    puts windows on the wire that are neither increasing nor contiguous. *)
Lemma snx_sf_read_chunk_plan_fails :
  (fst (fst (snx_sf_read set_timeout_env camera 0 2500 (repeat 0 2500) []))
   = (-7)%Z
   /\ calls (snd (snx_sf_read set_timeout_env camera 0 2500 (repeat 0 2500) []))
      = [read_set_call camera 0 1023])
  /\ (fst (fst (snx_sf_read ideal_env camera 0xFFFFFF 1024 (repeat 0 1024) []))
      = 0%Z
      /\ wire_windows
           (calls (snd (snx_sf_read ideal_env camera 0xFFFFFF 1024
                          (repeat 0 1024) [])))
         = [(0xFFFFFF, 1023); (0x3FE, 1)]).
Proof. vm_compute. repeat split; reflexivity. Qed.

(** ** Framing *)

Lemma lor_lt_pow2 a b n : a < 2 ^ n -> b < 2 ^ n -> N.lor a b < 2 ^ n.
Proof.
  intros Ha Hb.
  destruct (N.eq_dec (N.lor a b) 0) as [-> | Hne]; [lia|].
  apply N.log2_lt_pow2; [lia|]. rewrite N.log2_lor.
  destruct (N.eq_dec a 0) as [-> | Ha0], (N.eq_dec b 0) as [-> | Hb0].
  - now rewrite N.lor_0_l in Hne.
  - rewrite N.max_r by apply N.le_0_l. apply N.log2_lt_pow2; lia.
  - rewrite N.max_l by apply N.le_0_l. apply N.log2_lt_pow2; lia.
  - apply N.max_lub_lt; apply N.log2_lt_pow2; lia.
Qed.

Lemma xu_wValue_exact cs : cs < 256 -> xu_wValue cs = N.shiftl cs 8.
Proof.
  intros H. unfold xu_wValue, u16. apply N.mod_small.
  rewrite N.shiftl_mul_pow2. change (2 ^ 8) with 256.
  change (2 ^ 16) with 65536. lia.
Qed.

Lemma xu_wIndex_exact vc_if unit_id :
  vc_if < 256 -> unit_id < 256 ->
  xu_wIndex vc_if unit_id = N.lor (N.shiftl unit_id 8) vc_if.
Proof.
  intros Hv Hu. unfold xu_wIndex, u16. apply N.mod_small.
  apply lor_lt_pow2.
  - rewrite N.shiftl_mul_pow2. change (2 ^ 8) with 256.
    change (2 ^ 16) with 65536. lia.
  - change (2 ^ 16) with 65536. lia.
Qed.

Lemma read_payload_big_endian addr chunk :
  read_payload addr chunk
  = to_big_endian 3 (addr mod 2 ^ 24) ++ to_big_endian 2 chunk.
Proof.
  rewrite read_payload_bytes. cbn [to_big_endian app].
  change (2 ^ 24) with 16777216.
  assert (H2 : (addr / 65536) mod 256 = (addr mod 16777216 / 256 / 256) mod 256).
  { divmod addr 16777216 q r. divmod r 256 q1 r1. divmod q1 256 q2 r2.
    divmod q2 256 q3 r3. divmod addr 65536 q4 r4. divmod q4 256 q5 r5. lia. }
  assert (H1 : (addr / 256) mod 256 = (addr mod 16777216 / 256) mod 256).
  { divmod addr 16777216 q r. divmod r 256 q1 r1. divmod q1 256 q2 r2.
    divmod addr 256 q3 r3. divmod q3 256 q4 r4. lia. }
  assert (H0 : addr mod 256 = (addr mod 16777216) mod 256).
  { divmod addr 16777216 q r. divmod r 256 q1 r1. divmod addr 256 q2 r2. lia. }
  now rewrite H2, H1, H0.
Qed.

Lemma read_set_call_frame dev addr chunk :
  vc_interface dev < 256 -> xu_id dev < 256 ->
  read_set_call dev addr chunk
  = set_frame dev 0x23
      (to_big_endian 3 (addr mod 2 ^ 24) ++ to_big_endian 2 chunk) 5.
Proof.
  intros Hv Hu. unfold read_set_call, xu_set_request, set_frame.
  rewrite xu_wValue_exact by (unfold XU_CMD_SPI_READ_SET; lia).
  rewrite xu_wIndex_exact by assumption.
  rewrite <- read_payload_big_endian. reflexivity.
Qed.

Lemma read_get_call_frame dev chunk :
  vc_interface dev < 256 -> xu_id dev < 256 ->
  read_get_call dev chunk = get_frame dev 0x24 chunk.
Proof.
  intros Hv Hu. unfold read_get_call, xu_get_request, get_frame.
  rewrite xu_wValue_exact by (unfold XU_CMD_SPI_READ_GET; lia).
  now rewrite xu_wIndex_exact by assumption.
Qed.

Lemma read_run_framing dev addr remaining delta r :
  vc_interface dev < 256 -> xu_id dev < 256 ->
  read_run dev addr remaining delta r ->
  read_framing dev addr (calls delta).
Proof.
  intros Hv Hu.
  induction 1 as [addr | addr remaining s Hne Hs | addr remaining s g Hne Hs Hg
                 | addr remaining s g delta r Hne Hs Hg Hrun IH].
  - exact I.
  - pose proof (chunk_of_bounds remaining Hne) as Hb.
    exists (chunk_of remaining). cbn [calls map fst]. repeat split; try lia.
    now apply read_set_call_frame.
  - pose proof (chunk_of_bounds remaining Hne) as Hb.
    exists (chunk_of remaining). cbn [calls map fst]. repeat split; try lia.
    + now apply read_set_call_frame.
    + now apply read_get_call_frame.
  - pose proof (chunk_of_bounds remaining Hne) as Hb.
    exists (chunk_of remaining). cbn [calls map fst]. repeat split; try lia.
    + now apply read_set_call_frame.
    + now apply read_get_call_frame.
    + exact IH.
Qed.

Lemma read_run_within_limits dev addr remaining delta r :
  read_run dev addr remaining delta r ->
  Forall within_limits (calls delta).
Proof.
  induction 1 as [addr | addr remaining s Hne Hs | addr remaining s g Hne Hs Hg
                 | addr remaining s g delta r Hne Hs Hg Hrun IH];
    cbn [calls map fst];
    try pose proof (chunk_of_bounds remaining Hne) as Hb.
  - constructor.
  - repeat constructor. exists 5. split; [reflexivity | lia].
  - repeat constructor.
    + exists 5. split; [reflexivity | lia].
    + exists (chunk_of remaining). split; [reflexivity | lia].
  - constructor; [| constructor; [| exact IH]].
    + exists 5. split; [reflexivity | lia].
    + exists (chunk_of remaining). split; [reflexivity | lia].
Qed.

Section Framing.

Variable env : environment.

(** C2: with the interface number and the unit id in a byte each, [snx_xu_set]
    issues one transfer with bmRequestType 0x21, bRequest 0x01, wValue
    [cs << 8], wIndex [(xu_id << 8) | vc_interface] and timeout 3000, and
    [snx_xu_get] one with 0xA1 and 0x81 and the same wValue, wIndex and
    timeout; every transfer of [snx_sf_read] is an SPI-READ-SET (selector
    0x23) of exactly five bytes, the 24-bit address then the chunk length,
    both big-endian, or the SPI-READ-GET (selector 0x24) that follows it and
    asks for that chunk; none asks for more than 1023 bytes. *)
Theorem xu_wire_framing dev :
  vc_interface dev < 256 ->
  xu_id dev < 256 ->
  (forall cs payload len lg,
      cs < 256 ->
      calls (snd (snx_xu_set env (handle dev) (vc_interface dev) (xu_id dev)
                    cs payload len lg))
      = calls lg ++ [set_frame dev cs (firstn (N.to_nat len) payload) len])
  /\ (forall cs out p len lg,
      cs < 256 ->
      calls (snd (snx_xu_get env (handle dev) (vc_interface dev) (xu_id dev)
                    cs out p len lg))
      = calls lg ++ [get_frame dev cs len])
  /\ (forall addr length out lg,
      exists delta,
        snd (snx_sf_read env dev addr length out lg) = lg ++ delta
        /\ read_framing dev addr (calls delta)
        /\ Forall within_limits (calls delta)).
Proof.
  intros Hv Hu. repeat split.
  - intros cs payload len lg Hcs.
    unfold snx_xu_set, mbind, mret, extern, calls. cbn [snd].
    rewrite map_app. cbn [map fst]. unfold xu_set_request, set_frame.
    now rewrite xu_wValue_exact, xu_wIndex_exact.
  - intros cs out p len lg Hcs.
    unfold snx_xu_get, mbind, mret, extern, calls. cbn [snd].
    rewrite map_app. cbn [map fst]. unfold xu_get_request, get_frame.
    now rewrite xu_wValue_exact, xu_wIndex_exact.
  - intros addr length out lg.
    destruct (snx_sf_read_run env dev addr length out lg) as [delta [Hlog Hrun]].
    exists delta. repeat split.
    + exact Hlog.
    + eapply read_run_framing; eassumption.
    + eapply read_run_within_limits; eassumption.
Qed.

End Framing.

(** The first full-size Set and Get of a read on the camera (interface 0,
    unit 3), as they leave [snx_xu_set] and [snx_xu_get]. *)
Lemma xu_wire_framing_camera :
  calls (snd (snx_xu_set ideal_env 0x2000 0 3 0x23 [0; 3; 255; 3; 255] 5 []))
  = [libusb_control_transfer 0x2000 0x21 0x01 0x2300 0x0300
       [0; 3; 255; 3; 255] 5 3000]
  /\ calls (snd (snx_xu_get ideal_env 0x2000 0 3 0x24 (repeat 0 1023) 0 1023 []))
     = [libusb_control_transfer 0x2000 0xA1 0x81 0x2400 0x0300 [] 1023 3000].
Proof.
  destruct (xu_wire_framing ideal_env camera
              ltac:(vm_compute; reflexivity) ltac:(vm_compute; reflexivity))
    as [Hset [Hget _]].
  split.
  - exact (Hset 0x23 [0; 3; 255; 3; 255] 5 [] ltac:(vm_compute; reflexivity)).
  - exact (Hget 0x24 (repeat 0 1023) 0 1023 [] ltac:(vm_compute; reflexivity)).
Defined.

(** ** Failures end the read *)

Lemma read_run_set_failure dev addr remaining delta r :
  read_run dev addr remaining delta r ->
  forall before e after,
    delta = before ++ e :: after ->
    is_set e -> (ret (snd e) < 0)%Z ->
    after = [] /\ r = ret (snd e).
Proof.
  induction 1 as [addr | addr remaining s Hne Hs | addr remaining s g Hne Hs Hg
                 | addr remaining s g delta r Hne Hs Hg Hrun IH];
    intros before e after Heq Hset Hneg.
  - destruct before; discriminate.
  - destruct before as [| b before].
    + inversion Heq; subst. auto.
    + destruct before; discriminate.
  - destruct before as [| b1 [| b2 before]].
    + inversion Heq; subst. cbn in Hneg. lia.
    + inversion Heq; subst. discriminate Hset.
    + destruct before; discriminate.
  - destruct before as [| b1 [| b2 before]].
    + inversion Heq; subst. cbn in Hneg. lia.
    + inversion Heq; subst. discriminate Hset.
    + inversion Heq; subst. eapply IH; eauto.
Qed.

Lemma read_run_get_failure dev addr remaining delta r :
  read_run dev addr remaining delta r ->
  forall before e after,
    delta = before ++ e :: after ->
    is_get e -> (ret (snd e) < 0 \/ ret (snd e) < requested e)%Z ->
    after = [] /\ (r < 0)%Z.
Proof.
  induction 1 as [addr | addr remaining s Hne Hs | addr remaining s g Hne Hs Hg
                 | addr remaining s g delta r Hne Hs Hg Hrun IH];
    intros before e after Heq Hget Hbad.
  - destruct before; discriminate.
  - destruct before as [| b before].
    + inversion Heq; subst. discriminate Hget.
    + destruct before; discriminate.
  - destruct before as [| b1 [| b2 before]].
    + inversion Heq; subst. discriminate Hget.
    + inversion Heq; subst. split; [reflexivity|].
      destruct (Z.ltb_spec (ret g) 0); lia.
    + destruct before; discriminate.
  - destruct before as [| b1 [| b2 before]].
    + inversion Heq; subst. discriminate Hget.
    + inversion Heq; subst. cbn in Hbad. lia.
    + inversion Heq; subst. eapply IH; eauto.
Qed.

Lemma read_run_result dev addr remaining delta r :
  read_run dev addr remaining delta r -> (r = 0 \/ r < 0)%Z.
Proof.
  induction 1; auto.
  right. destruct (Z.ltb_spec (ret g) 0); lia.
Qed.

Lemma read_run_success_complete dev addr remaining delta r :
  read_run dev addr remaining delta r ->
  r = 0%Z ->
  remaining < 2 ^ 32 ->
  Forall (fun e => (is_set e -> 0 <= ret (snd e))%Z
                   /\ (is_get e -> ret (snd e) = requested e)) delta
  /\ received delta = Z.of_N remaining.
Proof.
  induction 1 as [addr | addr remaining s Hne Hs | addr remaining s g Hne Hs Hg
                 | addr remaining s g delta r Hne Hs Hg Hrun IH];
    intros Hr Hrem.
  - split; [constructor | reflexivity].
  - lia.
  - destruct (Z.ltb_spec (ret g) 0); lia.
  - pose proof (chunk_of_min remaining) as Hm.
    rewrite sub32_exact in IH by lia.
    destruct (IH Hr ltac:(lia)) as [Hall Hsum].
    split.
    + constructor; [| constructor; [| exact Hall]].
      * split; [intros _; exact Hs | intros Habs; discriminate Habs].
      * split; [intros Habs; discriminate Habs | intros _; exact Hg].
    + unfold received in *. cbn [map fold_right].
      rewrite Hsum. unfold get_bytes at 1 2. cbn. lia.
Qed.

Section Abort.

Variable env : environment.

(** C3: in the events a read adds to the log, a Set that returns a negative
    value is the last one and the read returns that value; a Get that
    returns a negative value or fewer bytes than it asked for is the last one
    and the read returns a negative value; the read returns 0 or a negative
    value, and 0 only when every Set succeeded, every Get brought in exactly
    the chunk it asked for, and the Gets brought in [length] bytes in all. *)
Theorem snx_sf_read_abort dev addr length out lg :
  length < 2 ^ 32 ->
  exists delta,
    snd (snx_sf_read env dev addr length out lg) = lg ++ delta
    /\ let r := fst (fst (snx_sf_read env dev addr length out lg)) in
       (forall before e after,
           delta = before ++ e :: after ->
           is_set e -> (ret (snd e) < 0)%Z ->
           after = [] /\ r = ret (snd e))
       /\ (forall before e after,
           delta = before ++ e :: after ->
           is_get e -> (ret (snd e) < 0 \/ ret (snd e) < requested e)%Z ->
           after = [] /\ (r < 0)%Z)
       /\ (r = 0 \/ r < 0)%Z
       /\ (r = 0%Z ->
           Forall (fun e => (is_set e -> 0 <= ret (snd e))%Z
                            /\ (is_get e -> ret (snd e) = requested e)) delta
           /\ received delta = Z.of_N length).
Proof.
  intros Hlen.
  destruct (snx_sf_read_run env dev addr length out lg) as [delta [Hlog Hrun]].
  exists delta. split; [exact Hlog|]. cbv zeta. repeat split.
  - eapply read_run_set_failure; eauto.
  - eapply read_run_set_failure; eauto.
  - eapply read_run_get_failure; eauto.
  - eapply read_run_get_failure; eauto.
  - eapply read_run_result; eauto.
  - eapply read_run_success_complete; eauto.
  - eapply read_run_success_complete; eauto.
Qed.

(** C8: a read of no bytes returns 0 at once, with the log and the buffer
    as they were. *)
Theorem snx_sf_read_zero dev addr out lg :
  snx_sf_read env dev addr 0 out lg = ((0%Z, out), lg).
Proof. unfold snx_sf_read. now simp sf_read_loop. Qed.

End Abort.

(** A Set that times out: the read returns the code of the timeout. *)
Lemma snx_sf_read_abort_timeout :
  fst (fst (snx_sf_read set_timeout_env camera 0 2500 (repeat 0 2500) []))
  = (-7)%Z.
Proof.
  destruct (snx_sf_read_abort set_timeout_env camera 0 2500 (repeat 0 2500) []
              ltac:(vm_compute; reflexivity))
    as [delta [Hlog [Hset _]]].
  vm_compute in Hlog. subst delta.
  exact (proj2 (Hset [] _ [] eq_refl eq_refl ltac:(vm_compute; reflexivity))).
Defined.

(** A Get that comes back one byte short: the read stops after the first
    pair and returns -1. *)
Example snx_sf_read_short_get :
  snx_sf_read short_get_env camera 0 2500 (repeat 0 2500) []
  = (((-1)%Z, repeat 0xA5 1022 ++ repeat 0 1478),
     [(read_set_call camera 0 1023, mk_answer 5 0 (repeat 0xA5 5));
      (read_get_call camera 1023, mk_answer 1022 0 (repeat 0xA5 1022))]).
Proof. vm_compute. reflexivity. Qed.

(** ** Addresses beyond 24 bits *)

Lemma read_payload_mod24 addr chunk :
  read_payload addr chunk = read_payload (addr mod 2 ^ 24) chunk.
Proof.
  rewrite (read_payload_big_endian addr), (read_payload_big_endian (_ mod _)).
  now rewrite N.Div0.mod_mod.
Qed.

Lemma read_payload_congruent a1 a2 chunk :
  a1 mod 2 ^ 24 = a2 mod 2 ^ 24 -> read_payload a1 chunk = read_payload a2 chunk.
Proof.
  intros H. rewrite (read_payload_mod24 a1), (read_payload_mod24 a2).
  now rewrite H.
Qed.

Lemma add32_congruent a1 a2 c :
  a1 mod 2 ^ 24 = a2 mod 2 ^ 24 ->
  add32 a1 c mod 2 ^ 24 = add32 a2 c mod 2 ^ 24.
Proof.
  unfold add32, u32. change (2 ^ 24) with 16777216.
  change (2 ^ 32) with 4294967296. intros H.
  divmod a1 16777216 q1 r1. divmod a2 16777216 q2 r2.
  divmod (a1 + c) 4294967296 s1 t1. divmod (a2 + c) 4294967296 s2 t2.
  divmod t1 16777216 u1 v1. divmod t2 16777216 u2 v2. lia.
Qed.

Section Congruence.

Variable env : environment.

Lemma sf_read_loop_body dev addr remaining p out lg :
  sf_read_loop env dev addr remaining p out lg =
  if N.eq_dec remaining 0 then ((0%Z, out), lg)
  else match sf_read_chunk env dev addr (chunk_of remaining) out p lg with
       | ((Some r, out'), lg') => ((r, out'), lg')
       | ((None, out'), lg') =>
           sf_read_loop env dev (add32 addr (chunk_of remaining))
             (sub32 remaining (chunk_of remaining))
             (p + chunk_of remaining) out' lg'
       end.
Proof.
  funelim (sf_read_loop env dev addr remaining p out lg).
  - rewrite Heq. reflexivity.
  - rewrite Heq0, Heq. reflexivity.
  - rewrite Heq0, Heq. reflexivity.
Qed.

Lemma sf_read_chunk_congruent dev a1 a2 chunk out p lg :
  a1 mod 2 ^ 24 = a2 mod 2 ^ 24 ->
  sf_read_chunk env dev a1 chunk out p lg
  = sf_read_chunk env dev a2 chunk out p lg.
Proof.
  intros H. unfold sf_read_chunk.
  now rewrite (read_payload_congruent a1 a2 chunk H).
Qed.

Lemma sf_read_loop_congruent dev remaining :
  forall a1 a2 p out lg,
    a1 mod 2 ^ 24 = a2 mod 2 ^ 24 ->
    sf_read_loop env dev a1 remaining p out lg
    = sf_read_loop env dev a2 remaining p out lg.
Proof.
  induction remaining as [remaining IH] using (well_founded_induction N.lt_wf_0).
  intros a1 a2 p out lg H.
  rewrite (sf_read_loop_body dev a1), (sf_read_loop_body dev a2).
  destruct (N.eq_dec remaining 0) as [Hz | Hne]; [reflexivity|].
  rewrite (sf_read_chunk_congruent dev a1 a2 _ _ _ _ H).
  destruct (sf_read_chunk env dev a2 (chunk_of remaining) out p lg)
    as [[[r |] out'] lg']; [reflexivity|].
  apply IH.
  - pose proof (chunk_of_bounds remaining Hne) as Hb.
    pose proof (chunk_of_min remaining) as Hm.
    unfold sub32.
    destruct (N.lt_ge_cases remaining (2 ^ 32)) as [Hlt | Hge];
      change (2 ^ 32) with 4294967296 in *.
    + rewrite Z.mod_small by (change (2 ^ 32)%Z with 4294967296%Z; lia). lia.
    + pose proof (Z.mod_pos_bound
                    (Z.of_N remaining - Z.of_N (chunk_of remaining)) (2 ^ 32)
                    ltac:(lia)) as Hb'.
      change (2 ^ 32)%Z with 4294967296%Z in *. lia.
  - now apply add32_congruent.
Qed.

(** C10: the three address bytes of every SPI-READ-SET are the low 24 bits of
    the running address, bits above bit 23 are dropped and no address is
    refused, so that reads from two addresses that are congruent modulo
    [2 ^ 24] issue the same transfers and end alike. *)
Theorem snx_sf_read_address_mod_2_24 dev :
  vc_interface dev < 256 ->
  xu_id dev < 256 ->
  (forall addr chunk,
      firstn 3 (read_payload addr chunk) = to_big_endian 3 (addr mod 2 ^ 24))
  /\ (forall addr length out lg,
      2 ^ 24 <= addr ->
      exists delta,
        snd (snx_sf_read env dev addr length out lg) = lg ++ delta
        /\ read_framing dev addr (calls delta))
  /\ (forall a1 a2 length out lg,
      a1 mod 2 ^ 24 = a2 mod 2 ^ 24 ->
      snx_sf_read env dev a1 length out lg
      = snx_sf_read env dev a2 length out lg).
Proof.
  intros Hv Hu. repeat split.
  - intros addr chunk. now rewrite read_payload_big_endian.
  - intros addr length out lg _.
    destruct (snx_sf_read_run env dev addr length out lg) as [delta [Hlog Hrun]].
    exists delta. split; [exact Hlog|].
    eapply read_run_framing; eassumption.
  - intros a1 a2 length out lg H. unfold snx_sf_read.
    now apply sf_read_loop_congruent.
Qed.

End Congruence.

(** Reading 2500 bytes from [0x1000010] is reading them from [0x10]. *)
Lemma snx_sf_read_address_mod_2_24_camera :
  snx_sf_read ideal_env camera 0x1000010 2500 (repeat 0 2500) []
  = snx_sf_read ideal_env camera 0x10 2500 (repeat 0 2500) [].
Proof.
  destruct (snx_sf_read_address_mod_2_24 ideal_env camera
              ltac:(vm_compute; reflexivity) ltac:(vm_compute; reflexivity))
    as [_ [_ Hsame]].
  exact (Hsame 0x1000010 0x10 2500 (repeat 0 2500) []
           ltac:(vm_compute; reflexivity)).
Defined.

(** ** The session *)

Section Session.

Variable env : environment.

Lemma snx_open_cases dev vid pid vc_if unit_id lg :
  let i := env lg libusb_init in
  let lg1 := lg ++ [(libusb_init, i)] in
  let open := libusb_open_device_with_vid_pid (ptr i) vid pid in
  let o := env lg1 open in
  let lg2 := lg1 ++ [(open, o)] in
  let exit := libusb_exit (ptr i) in
  let claim := libusb_claim_interface (ptr o) vc_if in
  snx_open env dev vid pid vc_if unit_id lg =
  if negb (ret i =? 0)%Z then (((-1)%Z, dev_zero), lg1)
  else if ptr o =? 0
       then (((-1)%Z, mk_snx_device (ptr i) 0 0 0),
             lg2 ++ [(exit, env lg2 exit)])
       else ((0%Z, mk_snx_device (ptr i) (ptr o) vc_if unit_id),
             lg2 ++ [(claim, env lg2 claim)]).
Proof.
  cbv zeta. unfold snx_open, mbind, mret, extern.
  destruct (ret (env lg libusb_init) =? 0)%Z eqn:Hi; cbn [negb ctx handle];
    [| reflexivity].
  destruct (ptr (env (lg ++ [(libusb_init, env lg libusb_init)])
                   (libusb_open_device_with_vid_pid
                      (ptr (env lg libusb_init)) vid pid)) =? 0) eqn:Ho.
  - apply N.eqb_eq in Ho. cbn. now rewrite Ho.
  - reflexivity.
Qed.

Lemma snx_close_cases dev lg :
  let release := libusb_release_interface (handle dev) (vc_interface dev) in
  let close := libusb_close (handle dev) in
  let lg1 := if handle dev =? 0 then lg
             else (lg ++ [(release, env lg release)])
                    ++ [(close, env (lg ++ [(release, env lg release)]) close)] in
  let exit := libusb_exit (ctx dev) in
  snx_close env dev lg =
  (dev_zero, if ctx dev =? 0 then lg1 else lg1 ++ [(exit, env lg1 exit)]).
Proof.
  cbv zeta. unfold snx_close, mbind, mret, extern.
  destruct (handle dev =? 0), (ctx dev =? 0); reflexivity.
Qed.

Lemma transfers_app lg lg' : transfers (lg ++ lg') = transfers lg ++ transfers lg'.
Proof. unfold transfers, calls. now rewrite map_app, filter_app. Qed.

Lemma snx_open_transfers dev vid pid vc_if unit_id lg :
  transfers (snd (snx_open env dev vid pid vc_if unit_id lg)) = transfers lg.
Proof.
  rewrite snx_open_cases. cbv zeta.
  destruct (negb _); [| destruct (_ =? 0)]; cbn [snd];
    rewrite !transfers_app; cbn; now rewrite !app_nil_r.
Qed.

Lemma snx_close_transfers dev lg :
  transfers (snd (snx_close env dev lg)) = transfers lg.
Proof.
  rewrite snx_close_cases. cbv zeta. cbn [snd].
  destruct (handle dev =? 0), (ctx dev =? 0);
    rewrite ?transfers_app; cbn; now rewrite ?app_nil_r.
Qed.

Lemma iface_claimed_app h iface lg e :
  iface_claimed h iface (lg ++ [e]) =
  match e with
  | (libusb_claim_interface h' i', a) =>
      if ((h' =? h) && (i' =? iface) && (ret a =? 0)%Z)%bool
      then true else iface_claimed h iface lg
  | (libusb_release_interface h' i', a) =>
      if ((h' =? h) && (i' =? iface) && (ret a =? 0)%Z)%bool
      then false else iface_claimed h iface lg
  | (libusb_close h', _) => if h' =? h then false else iface_claimed h iface lg
  | _ => iface_claimed h iface lg
  end.
Proof. unfold iface_claimed. rewrite fold_left_app. reflexivity. Qed.

(** C5, as amended: [snx_close] leaves every field of the session zero.
    [snx_open] returns 0 or -1.  When it returns 0 it has made three calls,
    [libusb_init] with code 0, the open of the device with a handle that is
    not null, and one request to claim the interface; the session holds that
    context, that handle, the interface number and the unit id; the
    interface is claimed if the request returned 0 and as it was before
    otherwise.  When it returns -1 the handle of the session is null, and
    either [libusb_init] failed and nothing else was called, or the device
    was not opened and the context was given back with [libusb_exit]. *)
Theorem session_lifecycle dev vid pid vc_if unit_id lg :
  fst (snx_close env dev lg) = dev_zero
  /\ let r := fst (fst (snx_open env dev vid pid vc_if unit_id lg)) in
     let dev' := snd (fst (snx_open env dev vid pid vc_if unit_id lg)) in
     let lg' := snd (snx_open env dev vid pid vc_if unit_id lg) in
     (r = 0 \/ r = -1)%Z
     /\ (r = 0%Z ->
         exists i o c,
           lg' = lg ++ [(libusb_init, i);
                        (libusb_open_device_with_vid_pid (ptr i) vid pid, o);
                        (libusb_claim_interface (ptr o) vc_if, c)]
           /\ ret i = 0%Z /\ ptr o <> 0
           /\ dev' = mk_snx_device (ptr i) (ptr o) vc_if unit_id
           /\ iface_claimed (ptr o) vc_if lg'
              = if (ret c =? 0)%Z then true
                else iface_claimed (ptr o) vc_if lg)
     /\ (r = (-1)%Z ->
         handle dev' = 0
         /\ ((exists i, lg' = lg ++ [(libusb_init, i)] /\ ret i <> 0%Z)
             \/ (exists i o x,
                    lg' = lg ++ [(libusb_init, i);
                                 (libusb_open_device_with_vid_pid (ptr i) vid pid,
                                  o);
                                 (libusb_exit (ptr i), x)]
                    /\ ret i = 0%Z /\ ptr o = 0))).
Proof.
  split; [now rewrite snx_close_cases|].
  cbv zeta. rewrite snx_open_cases.
  set (i := env lg libusb_init).
  set (lg1 := lg ++ [(libusb_init, i)]).
  set (o := env lg1 (libusb_open_device_with_vid_pid (ptr i) vid pid)).
  set (lg2 := lg1 ++ [(libusb_open_device_with_vid_pid (ptr i) vid pid, o)]).
  destruct (Z.eqb_spec (ret i) 0) as [Hi | Hi]; cbn [negb].
  - destruct (N.eqb_spec (ptr o) 0) as [Ho | Ho]; cbn [fst snd handle].
    + split; [right; reflexivity|]. split; [discriminate|].
      intros _. split; [reflexivity|]. right.
      eexists i, o, _. subst lg2 lg1. rewrite <- !app_assoc. cbn [app].
      auto.
    + split; [left; reflexivity|]. split; [| discriminate].
      intros _.
      set (c := env lg2 (libusb_claim_interface (ptr o) vc_if)).
      assert (Hclaim : iface_claimed (ptr o) vc_if
                         (lg2 ++ [(libusb_claim_interface (ptr o) vc_if, c)])
                       = if (ret c =? 0)%Z then true
                         else iface_claimed (ptr o) vc_if lg).
      { subst lg2 lg1. rewrite !iface_claimed_app, !N.eqb_refl. reflexivity. }
      exists i, o, c. rewrite Hclaim. subst lg2 lg1.
      rewrite <- !app_assoc. cbn [app]. auto.
  - cbn [fst snd handle]. split; [right; reflexivity|]. split; [discriminate|].
    intros _. split; [reflexivity|]. left. exists i. auto.
Qed.

(** C6: on a session whose two handles are null [snx_close] calls nothing
    and leaves the session with every field zero; after any [snx_close] a
    second one changes neither the session nor the log. *)
Theorem snx_close_idempotent dev vc_if unit_id lg :
  snx_close env dev_zero lg = (dev_zero, lg)
  /\ snx_close env (mk_snx_device 0 0 vc_if unit_id) lg = (dev_zero, lg)
  /\ snx_close env (fst (snx_close env dev lg)) (snd (snx_close env dev lg))
     = snx_close env dev lg.
Proof.
  split; [reflexivity|]. split; [reflexivity|].
  rewrite (snx_close_cases dev lg). cbn [fst snd]. reflexivity.
Qed.

End Session.

(** On the camera with everything in order, [snx_open] leaves the session
    open on the context and the handle it was given, interface claimed. *)
Lemma session_lifecycle_camera :
  snd (fst (snx_open ideal_env dev_zero 0x0C45 0x6366 0 3 [])) = camera
  /\ iface_claimed 0x2000 0
       (snd (snx_open ideal_env dev_zero 0x0C45 0x6366 0 3 [])) = true.
Proof.
  destruct (session_lifecycle ideal_env dev_zero 0x0C45 0x6366 0 3 [])
    as [_ [_ [Hok _]]].
  destruct (Hok eq_refl) as [i [o [c [Hlog [_ [_ [Hdev Hclaim]]]]]]].
  vm_compute in Hlog. inversion Hlog; subst i o c. clear Hlog.
  split; [exact Hdev | exact Hclaim].
Defined.

(** C5 as stated fails twice.  With the interface held by another
    driver [snx_open] returns 0 although the interface is not claimed.  With
    no device attached it returns -1 and leaves in the session the context
    it has just given back: the session is neither closed nor open. *)
Lemma snx_open_partial_states :
  (fst (fst (snx_open busy_interface_env dev_zero 0x0C45 0x6366 0 3 []))
   = 0%Z
   /\ iface_claimed 0x2000 0
        (snd (snx_open busy_interface_env dev_zero 0x0C45 0x6366 0 3 []))
      = false
   /\ ~ fully_open
        (snd (fst (snx_open busy_interface_env dev_zero 0x0C45 0x6366 0 3 [])))
        (snd (snx_open busy_interface_env dev_zero 0x0C45 0x6366 0 3 [])))
  /\ (fst (fst (snx_open no_device_env dev_zero 0x0C45 0x6366 0 3 []))
      = (-1)%Z
      /\ snd (fst (snx_open no_device_env dev_zero 0x0C45 0x6366 0 3 []))
         = mk_snx_device 0x1000 0 0 0
      /\ context_live 0x1000
           (snd (snx_open no_device_env dev_zero 0x0C45 0x6366 0 3 []))
         = false
      /\ ~ fully_closed
           (snd (fst (snx_open no_device_env dev_zero 0x0C45 0x6366 0 3 [])))).
Proof.
  repeat split.
  - intros [_ [_ [_ [_ H]]]]. vm_compute in H. discriminate.
  - intros [H _]. vm_compute in H. discriminate.
Qed.

(** ** The dump *)

Section Dump.

Variable env : environment.

(** Once the buffer is there, the read has returned 0 and the file is open,
    the answers to [fwrite] and [fclose] play no part in the result. *)
Lemma snx_dump_firmware_ignores_fwrite dev addr length path lg :
  let m := env lg (malloc length) in
  let lg1 := lg ++ [(malloc length, m)] in
  let rd := snx_sf_read env dev addr length (fresh_block m length) lg1 in
  let f := env (snd rd) (fopen path "wb") in
  ptr m <> 0 ->
  fst (fst rd) = 0%Z ->
  ptr f <> 0 ->
  fst (snx_dump_firmware env dev addr length path lg) = 0%Z.
Proof.
  cbv zeta. intros Hm Hr Hf.
  unfold snx_dump_firmware, mbind, mret, extern.
  apply N.eqb_neq in Hm, Hf. rewrite Hm.
  destruct (snx_sf_read env dev addr length
              (fresh_block (env lg (malloc length)) length)
              (lg ++ [(malloc length, env lg (malloc length))]))
    as [[r content] lg2] eqn:Hrd.
  cbn [fst snd] in Hr, Hf. subst r. cbn [Z.eqb]. rewrite Hf. reflexivity.
Qed.

(** The three failures of the dump, each with the calls it stops after. *)
Lemma snx_dump_firmware_failures dev addr length path lg :
  let m := env lg (malloc length) in
  let lg1 := lg ++ [(malloc length, m)] in
  let rd := snx_sf_read env dev addr length (fresh_block m length) lg1 in
  let f := env (snd rd) (fopen path "wb") in
  let lg3 := snd rd ++ [(fopen path "wb", f)] in
  (ptr m = 0 ->
   snx_dump_firmware env dev addr length path lg = ((-1)%Z, lg1))
  /\ (ptr m <> 0 -> fst (fst rd) <> 0%Z ->
      snx_dump_firmware env dev addr length path lg
      = (fst (fst rd), snd rd ++ [(free (ptr m), env (snd rd) (free (ptr m)))]))
  /\ (ptr m <> 0 -> fst (fst rd) = 0%Z -> ptr f = 0 ->
      snx_dump_firmware env dev addr length path lg
      = ((-1)%Z, lg3 ++ [(free (ptr m), env lg3 (free (ptr m)))])).
Proof.
  cbv zeta. unfold snx_dump_firmware, mbind, mret, extern. repeat split.
  - intros Hm. apply N.eqb_eq in Hm. now rewrite Hm.
  - intros Hm Hr. apply N.eqb_neq in Hm. rewrite Hm.
    destruct (snx_sf_read env dev addr length
                (fresh_block (env lg (malloc length)) length)
                (lg ++ [(malloc length, env lg (malloc length))]))
      as [[r content] lg2].
    cbn [fst snd] in *. apply Z.eqb_neq in Hr. now rewrite Hr.
  - intros Hm Hr Hf. apply N.eqb_neq in Hm. rewrite Hm.
    destruct (snx_sf_read env dev addr length
                (fresh_block (env lg (malloc length)) length)
                (lg ++ [(malloc length, env lg (malloc length))]))
      as [[r content] lg2].
    cbn [fst snd] in *. subst r. cbn [Z.eqb].
    apply N.eqb_eq in Hf. now rewrite Hf.
Qed.

End Dump.

(** C7 does not hold of the code: with the disk full [fwrite] writes none of
    the 2500 bytes, and [snx_dump_firmware] returns 0 all the same. *)
Theorem snx_dump_firmware_disk_full :
  fst (snx_dump_firmware disk_full_env camera 0 2500 "firmware_dump.bin" [])
  = 0%Z
  /\ exists content written,
       In (fwrite content 1 2500 0x4000, written)
          (snd (snx_dump_firmware disk_full_env camera 0 2500
                  "firmware_dump.bin" []))
       /\ List.length content = 2500%nat
       /\ ptr written = 0.
Proof.
  split; [vm_compute; reflexivity|].
  exists (repeat 0xA5 2500), (mk_answer 0 0 []).
  split; [| split; [apply repeat_length | reflexivity]].
  vm_compute. do 8 right. left. reflexivity.
Qed.

(** ** The command line *)

Section CommandLine.

Variable env : environment.

Lemma main_wrong_count argv0 args lg :
  List.length args <> 1%nat ->
  main env argv0 args lg
  = (1%Z, after_call env (fprintf_stderr (usage argv0)) lg).
Proof.
  intros Hn. unfold main, mbind, mret, extern, after_call.
  destruct (N.eqb_spec (N.of_nat (1 + List.length args)) 2) as [He | He];
    [lia | reflexivity].
Qed.

Lemma main_one_argument argv0 cmd lg :
  let opened := snx_open env dev_zero 0x0C45 0x6366 0 3 lg in
  let dev := snd (fst opened) in
  let lg1 := snd opened in
  main env argv0 [cmd] lg =
  if negb (fst (fst opened) =? 0)%Z
  then (1%Z, after_call env msg_open_failed lg1)
  else
    let lg2 :=
      if String.eqb cmd "dump" then
        let d := snx_dump_firmware env dev 0 0x20000 "firmware_dump.bin" lg1 in
        after_call env (if (fst d =? 0)%Z then msg_dump_ok else msg_dump_failed)
          (snd d)
      else if String.eqb cmd "read" then
        let rd := snx_sf_read env dev 0 256 (repeat 0 256) lg1 in
        after_call env
          (if (fst (fst rd) =? 0)%Z then msg_read_ok else msg_read_failed)
          (snd rd)
      else after_call env msg_unknown lg1 in
    (0%Z, snd (snx_close env dev lg2)).
Proof.
  cbv zeta. unfold main, mbind, mret, extern, after_call.
  unfold msg_open_failed, msg_unknown, msg_dump_ok, msg_dump_failed,
    msg_read_ok, msg_read_failed.
  change (negb (N.of_nat (1 + List.length [cmd]) =? 2)) with false.
  cbv beta iota.
  destruct (snx_open env dev_zero 3141 25446 0 3 lg) as [[r dev] lg1].
  cbn [fst snd nth].
  destruct (negb (r =? 0)%Z); [reflexivity|].
  destruct (String.eqb cmd "dump").
  - destruct (snx_dump_firmware env dev 0 131072 "firmware_dump.bin" lg1)
      as [d lg2].
    cbn [fst snd]. destruct (d =? 0)%Z; cbv beta;
      match goal with
      | |- context [snx_close env dev ?l] => destruct (snx_close env dev l)
      end; reflexivity.
  - destruct (String.eqb cmd "read").
    + destruct (snx_sf_read env dev 0 256 (repeat 0 256) lg1)
        as [[r' out] lg2].
      cbn [fst snd]. destruct (r' =? 0)%Z; cbv beta;
        match goal with
        | |- context [snx_close env dev ?l] => destruct (snx_close env dev l)
        end; reflexivity.
    + cbv beta.
      match goal with
      | |- context [snx_close env dev ?l] => destruct (snx_close env dev l)
      end; reflexivity.
Qed.

(** C4, as amended: with no argument or with two or more, [main] prints the
    usage message, returns 1 and calls nothing else, so nothing of libusb.
    With one argument that is neither "dump" nor "read" it opens the device
    first; if that fails it prints "Device open failed" and returns 1, and
    if it succeeds it prints "Unknown command", closes the session and
    returns 0; in both cases without a control transfer. *)
Theorem main_usage argv0 args lg :
  (List.length args <> 1%nat ->
   fst (main env argv0 args lg) = 1%Z
   /\ snd (main env argv0 args lg)
      = after_call env (fprintf_stderr (usage argv0)) lg
   /\ usb_calls (snd (main env argv0 args lg)) = usb_calls lg)
  /\ (forall cmd,
      args = [cmd] -> cmd <> "dump"%string -> cmd <> "read"%string ->
      let opened := snx_open env dev_zero 0x0C45 0x6366 0 3 lg in
      transfers (snd (main env argv0 args lg)) = transfers lg
      /\ (fst (fst opened) <> 0%Z ->
          main env argv0 args lg
          = (1%Z, after_call env msg_open_failed (snd opened)))
      /\ (fst (fst opened) = 0%Z ->
          main env argv0 args lg
          = (0%Z, snd (snx_close env (snd (fst opened))
                         (after_call env msg_unknown (snd opened)))))).
Proof.
  split.
  - intros Hn. rewrite main_wrong_count by assumption.
    repeat split. unfold usb_calls, calls, after_call. cbn [snd].
    rewrite map_app, filter_app. cbn. apply app_nil_r.
  - intros cmd -> Hd Hr. cbv zeta. rewrite main_one_argument. cbv zeta.
    apply String.eqb_neq in Hd, Hr. rewrite Hd, Hr.
    destruct (Z.eqb_spec
                (fst (fst (snx_open env dev_zero 0x0C45 0x6366 0 3 lg))) 0)
      as [Ho | Ho]; cbn [negb].
    + repeat split.
      * cbn [snd]. rewrite snx_close_transfers. unfold after_call.
        rewrite transfers_app, snx_open_transfers. cbn. apply app_nil_r.
      * intros Hne. contradiction.
    + repeat split.
      * cbn [snd]. unfold after_call.
        rewrite transfers_app, snx_open_transfers. cbn. apply app_nil_r.
      * intros He. contradiction.
Qed.

(** C9: with the single argument "dump" or "read" and the device open,
    [main] returns 0 whatever the operation returned; after the operation it
    prints the message of success or the message of failure, closes the
    session and calls nothing else. *)
Theorem main_exit_status_ignores_operation argv0 cmd lg :
  cmd = "dump"%string \/ cmd = "read"%string ->
  fst (fst (snx_open env dev_zero 0x0C45 0x6366 0 3 lg)) = 0%Z ->
  let dev := snd (fst (snx_open env dev_zero 0x0C45 0x6366 0 3 lg)) in
  let lg1 := snd (snx_open env dev_zero 0x0C45 0x6366 0 3 lg) in
  fst (main env argv0 [cmd] lg) = 0%Z
  /\ (cmd = "dump"%string ->
      let d := snx_dump_firmware env dev 0 0x20000 "firmware_dump.bin" lg1 in
      snd (main env argv0 [cmd] lg)
      = snd (snx_close env dev
               (after_call env
                  (if (fst d =? 0)%Z then msg_dump_ok else msg_dump_failed)
                  (snd d))))
  /\ (cmd = "read"%string ->
      let rd := snx_sf_read env dev 0 256 (repeat 0 256) lg1 in
      snd (main env argv0 [cmd] lg)
      = snd (snx_close env dev
               (after_call env
                  (if (fst (fst rd) =? 0)%Z then msg_read_ok
                   else msg_read_failed)
                  (snd rd)))).
Proof.
  intros Hcmd Hopen. cbv zeta. rewrite main_one_argument. cbv zeta.
  rewrite Hopen. cbn [Z.eqb negb fst snd].
  split; [reflexivity|]. split; intros ->; reflexivity.
Qed.

End CommandLine.

(** Started without an argument, the program prints the usage message and
    ends with status 1. *)
Lemma main_usage_no_argument :
  main ideal_env "snx_flash.exe" [] []
  = (1%Z, [(fprintf_stderr (usage "snx_flash.exe"), mk_answer 0 0 [])]).
Proof.
  destruct (main_usage ideal_env "snx_flash.exe" [] []) as [Hcount _].
  destruct (Hcount ltac:(vm_compute; discriminate)) as [Hexit [Hlog _]].
  rewrite (surjective_pairing (main ideal_env "snx_flash.exe" [] [])).
  rewrite Hexit, Hlog. reflexivity.
Defined.

(** C4 as stated fails: an unknown command with the camera attached
    ends with status 0, after the device has been opened and closed. *)
Lemma main_unknown_command_exits_0 :
  fst (main ideal_env "snx_flash.exe" ["erase"%string] []) = 0%Z
  /\ calls (snd (main ideal_env "snx_flash.exe" ["erase"%string] []))
     = [libusb_init;
        libusb_open_device_with_vid_pid 0x1000 0x0C45 0x6366;
        libusb_claim_interface 0x2000 0;
        msg_unknown;
        libusb_release_interface 0x2000 0;
        libusb_close 0x2000;
        libusb_exit 0x1000].
Proof. vm_compute. split; reflexivity. Qed.

(** "read" with transfers that time out: "Read failed" is printed and the
    status is 0. *)
Lemma main_exit_status_read_timeout :
  fst (main set_timeout_env "snx_flash.exe" ["read"%string] []) = 0%Z
  /\ In msg_read_failed
       (calls (snd (main set_timeout_env "snx_flash.exe" ["read"%string] []))).
Proof.
  destruct (main_exit_status_ignores_operation set_timeout_env
              "snx_flash.exe" "read" []
              (or_intror eq_refl) ltac:(vm_compute; reflexivity))
    as [Hexit [_ Hread]].
  split; [exact Hexit|].
  rewrite (Hread eq_refl). vm_compute. do 4 right. left. reflexivity.
Defined.

(** * Further properties *)

(** ** The destination buffer *)

Lemma blit_length dst :
  forall off src, List.length (blit off src dst) = List.length dst.
Proof.
  induction dst as [| d dst IH]; intros off src; [reflexivity|].
  destruct off as [| off]; [destruct src as [| s src] |]; cbn;
    now rewrite ?IH.
Qed.

Lemma blit_skipn dst :
  forall off src n,
    (off + List.length src <= n)%nat ->
    skipn n (blit off src dst) = skipn n dst.
Proof.
  induction dst as [| d dst IH]; intros off src n Hn;
    [now destruct n|].
  destruct off as [| off]; [destruct src as [| s src] |]; cbn in *.
  - reflexivity.
  - destruct n as [| n]; [lia|]. cbn. apply IH. cbn. lia.
  - destruct n as [| n]; [lia|]. cbn. apply IH. lia.
Qed.

Lemma blit_firstn dst :
  forall off src,
    (off + List.length src <= List.length dst)%nat ->
    firstn (off + List.length src) (blit off src dst) = firstn off dst ++ src.
Proof.
  induction dst as [| d dst IH]; intros off src Hb.
  - destruct off, src; cbn in *; try lia. reflexivity.
  - destruct off as [| off]; [destruct src as [| s src] |]; cbn in *.
    + reflexivity.
    + f_equal. apply (IH 0%nat src). cbn. lia.
    + f_equal. apply IH. lia.
Qed.

Lemma sub32_le a b : b <= a -> sub32 a b <= a - b.
Proof.
  intros Hle. unfold sub32.
  pose proof (Z.mod_le (Z.of_N a - Z.of_N b) (2 ^ 32) ltac:(lia) ltac:(lia)).
  pose proof (Z.mod_pos_bound (Z.of_N a - Z.of_N b) (2 ^ 32) ltac:(lia)).
  lia.
Qed.

Section Destination.

Variable env : environment.

Lemma sf_read_loop_bounds dev addr remaining p out lg :
  List.length (snd (fst (sf_read_loop env dev addr remaining p out lg)))
  = List.length out
  /\ forall n,
       (N.to_nat p + N.to_nat remaining <= n)%nat ->
       skipn n (snd (fst (sf_read_loop env dev addr remaining p out lg)))
       = skipn n out.
Proof.
  funelim (sf_read_loop env dev addr remaining p out lg).
  - split; reflexivity.
  - rewrite sf_read_chunk_eq in Heq. cbn [fst snd].
    pose proof (chunk_of_min remaining) as Hm.
    destruct (ret (env lg (read_set_call dev addr (chunk_of remaining))) <? 0)%Z.
    + inversion Heq; subst. split; reflexivity.
    + match type of Heq with context [if ?b then _ else _] =>
        destruct b end; [| discriminate].
      inversion Heq; subst. split; [apply blit_length|].
      intros n Hn. apply blit_skipn.
      pose proof (firstn_le_length (N.to_nat (chunk_of remaining))
                    (bytes (env (lg ++ [(read_set_call dev addr (chunk_of remaining),
                                         env lg (read_set_call dev addr (chunk_of remaining)))])
                              (read_get_call dev (chunk_of remaining))))).
      lia.
  - rewrite sf_read_chunk_eq in Heq.
    pose proof (chunk_of_min remaining) as Hm.
    pose proof (sub32_le remaining (chunk_of remaining) ltac:(lia)) as Hsub.
    destruct (ret (env lg (read_set_call dev addr (chunk_of remaining))) <? 0)%Z;
      [discriminate|].
    match type of Heq with context [if ?b then _ else _] =>
      destruct b end; [discriminate|].
    inversion Heq; subst. clear Heq.
    destruct H as [Hlen Hskip]. split.
    + rewrite Hlen. apply blit_length.
    + intros n Hn. rewrite Hskip by lia. apply blit_skipn.
      pose proof (firstn_le_length (N.to_nat (chunk_of remaining))
                    (bytes (env (lg ++ [(read_set_call dev addr (chunk_of remaining),
                                         env lg (read_set_call dev addr (chunk_of remaining)))])
                              (read_get_call dev (chunk_of remaining))))).
      lia.
Qed.

(** X1: whatever the device answers, [snx_sf_read] leaves the destination
    with the size it had and changes no byte at offset [length] or
    beyond. *)
Theorem snx_sf_read_stays_within_length dev addr length out lg :
  List.length (snd (fst (snx_sf_read env dev addr length out lg)))
  = List.length out
  /\ skipn (N.to_nat length) (snd (fst (snx_sf_read env dev addr length out lg)))
     = skipn (N.to_nat length) out.
Proof.
  unfold snx_sf_read.
  destruct (sf_read_loop_bounds dev addr length 0 out lg) as [Hlen Hskip].
  split; [exact Hlen | apply Hskip; lia].
Qed.

End Destination.

Section Content.

Variable env : environment.
Hypothesis delivery : full_delivery env.

Lemma get_answer_complete dev lg chunk :
  ret (env lg (read_get_call dev chunk)) = Z.of_N chunk ->
  firstn (N.to_nat chunk) (bytes (env lg (read_get_call dev chunk)))
  = bytes (env lg (read_get_call dev chunk))
  /\ List.length (bytes (env lg (read_get_call dev chunk))) = N.to_nat chunk.
Proof.
  intros Hret.
  pose proof (delivery lg (read_get_call dev chunk) eq_refl ltac:(lia)) as Hd.
  split; [apply firstn_all2 |]; lia.
Qed.

Lemma sf_read_loop_content dev addr remaining p out lg :
  remaining < 2 ^ 32 ->
  (N.to_nat p + N.to_nat remaining <= List.length out)%nat ->
  fst (fst (sf_read_loop env dev addr remaining p out lg)) = 0%Z ->
  exists delta,
    snd (sf_read_loop env dev addr remaining p out lg) = lg ++ delta
    /\ snd (fst (sf_read_loop env dev addr remaining p out lg))
       = firstn (N.to_nat p) out ++ flat_map get_data delta
         ++ skipn (N.to_nat p + N.to_nat remaining) out.
Proof.
  funelim (sf_read_loop env dev addr remaining p out lg);
    intros Hrem Hfit Hok.
  - exists []. cbn [fst snd flat_map app]. rewrite app_nil_r.
    subst. rewrite Nat.add_0_r. now rewrite firstn_skipn.
  - exfalso. rewrite sf_read_chunk_eq in Heq. cbn [fst snd] in Hok. subst r.
    destruct (Z.ltb_spec
                (ret (env lg (read_set_call dev addr (chunk_of remaining)))) 0).
    + inversion Heq. lia.
    + match type of Heq with context [if ?b then _ else _] =>
        destruct b end; [| discriminate].
      injection Heq as Hr _ _. revert Hr.
      destruct (Z.ltb_spec
                  (ret (env (lg ++ [(read_set_call dev addr (chunk_of remaining),
                                     env lg (read_set_call dev addr (chunk_of remaining)))])
                          (read_get_call dev (chunk_of remaining)))) 0); lia.
  - rewrite sf_read_chunk_eq in Heq.
    pose proof (chunk_of_min remaining) as Hm.
    destruct (ret (env lg (read_set_call dev addr (chunk_of remaining))) <? 0)%Z;
      [discriminate|].
    match type of Heq with context [if ?b then _ else _] =>
      destruct b eqn:Hb end; [discriminate|].
    apply orb_false_iff in Hb. destruct Hb as [_ Hb].
    apply negb_false_iff in Hb. apply Z.eqb_eq in Hb.
    destruct (get_answer_complete _ _ _ Hb) as [Hall Hsize].
    inversion Heq; subst. clear Heq.
    rewrite Hall in *.
    set (s := (read_set_call dev addr (chunk_of remaining),
               env lg (read_set_call dev addr (chunk_of remaining)))) in *.
    set (g := (read_get_call dev (chunk_of remaining),
               env (lg ++ [s]) (read_get_call dev (chunk_of remaining)))) in *.
    set (data := bytes (env (lg ++ [s]) (read_get_call dev (chunk_of remaining))))
      in *.
    assert (Hsub : sub32 remaining (chunk_of remaining)
                   = remaining - chunk_of remaining)
      by (apply sub32_exact; lia).
    rewrite Hsub in *.
    destruct (H ltac:(lia)
                ltac:(rewrite blit_length; lia) Hok) as [delta [Hlog Hout]].
    exists (s :: g :: delta). split.
    + rewrite Hlog, <- !app_assoc. reflexivity.
    + rewrite Hout. cbn [flat_map].
      change (get_data s) with (@nil N). change (get_data g) with data.
      cbn [app]. rewrite <- !app_assoc.
      replace (N.to_nat (p + chunk_of remaining))
        with (N.to_nat p + List.length data)%nat by lia.
      rewrite blit_skipn by lia.
      rewrite blit_firstn by lia.
      rewrite <- !app_assoc. do 3 f_equal. f_equal. lia.
Qed.

(** X2: when the device delivers what it reports, the destination holds at
    least [length] bytes and the read returns 0, the first [length] bytes of
    the destination are the data of the Gets, in the order of the Gets, and
    the rest of the destination is as it was. *)
Theorem snx_sf_read_content dev addr length out lg :
  length < 2 ^ 32 ->
  (N.to_nat length <= List.length out)%nat ->
  fst (fst (snx_sf_read env dev addr length out lg)) = 0%Z ->
  exists delta,
    snd (snx_sf_read env dev addr length out lg) = lg ++ delta
    /\ snd (fst (snx_sf_read env dev addr length out lg))
       = flat_map get_data delta ++ skipn (N.to_nat length) out
    /\ List.length (flat_map get_data delta) = N.to_nat length.
Proof.
  intros Hlen Hfit Hok. unfold snx_sf_read in *.
  destruct (sf_read_loop_content dev addr length 0 out lg Hlen
              ltac:(cbn; lia) Hok) as [delta [Hlog Hout]].
  cbn [N.to_nat firstn app Nat.add] in Hout.
  exists delta. repeat split; try assumption.
  pose proof (sf_read_loop_bounds env dev addr length 0 out lg) as [Hsize _].
  rewrite Hout, length_app, length_skipn in Hsize. lia.
Qed.

End Content.

Lemma ideal_env_full_delivery : full_delivery ideal_env.
Proof.
  intros lg c Hc Hret. destruct c; try discriminate.
  cbn. rewrite repeat_length. lia.
Qed.

(** A destination of 3000 bytes after a read of 2500 from the ideal device:
    2500 bytes of data, then the 500 bytes that were there. *)
Lemma snx_sf_read_content_2500 :
  snd (fst (snx_sf_read ideal_env camera 0 2500 (repeat 0 3000) []))
  = repeat 0xA5 2500 ++ repeat 0 500.
Proof.
  destruct (snx_sf_read_content ideal_env ideal_env_full_delivery
              camera 0 2500 (repeat 0 3000) []
              ltac:(vm_compute; reflexivity)
              ltac:(vm_compute; lia)
              ltac:(vm_compute; reflexivity))
    as [delta [Hlog [Hout _]]].
  vm_compute in Hlog. subst delta. rewrite Hout. vm_compute. reflexivity.
Defined.

(** ** Order of the transfers *)

Lemma u32_mod_2_24 x : u32 x mod 2 ^ 24 = x mod 2 ^ 24.
Proof.
  unfold u32. change (2 ^ 24) with 16777216. change (2 ^ 32) with 4294967296.
  divmod x 4294967296 q r. divmod r 16777216 q1 r1. divmod x 16777216 q2 r2.
  lia.
Qed.

Lemma read_set_call_congruent dev a1 a2 c :
  a1 mod 2 ^ 24 = a2 mod 2 ^ 24 ->
  read_set_call dev a1 c = read_set_call dev a2 c.
Proof.
  intros H. unfold read_set_call.
  now rewrite (read_payload_congruent a1 a2 c H).
Qed.

Lemma plan_calls_congruent dev remaining :
  forall a1 a2,
    a1 mod 2 ^ 24 = a2 mod 2 ^ 24 ->
    flat_map (window_calls dev) (spec_chunk_plan a1 remaining)
    = flat_map (window_calls dev) (spec_chunk_plan a2 remaining).
Proof.
  induction remaining as [remaining IH] using (well_founded_induction N.lt_wf_0).
  intros a1 a2 H.
  destruct (N.eq_dec remaining 0) as [-> | Hne]; [reflexivity|].
  pose proof (chunk_of_bounds remaining Hne) as Hb.
  pose proof (chunk_of_min remaining) as Hm.
  rewrite (spec_chunk_plan_step a1 remaining Hne),
    (spec_chunk_plan_step a2 remaining Hne).
  cbn [flat_map window_calls fst snd app].
  rewrite (read_set_call_congruent dev a1 a2 _ H). do 2 f_equal.
  apply IH; [lia|].
  rewrite (N.Div0.add_mod a1), (N.Div0.add_mod a2). now rewrite H.
Qed.

Lemma plan_calls_length dev ws :
  List.length (flat_map (window_calls dev) ws) = (2 * List.length ws)%nat.
Proof. induction ws as [| w ws IH]; cbn in *; lia. Qed.

Lemma read_run_in_plan dev addr remaining delta r :
  read_run dev addr remaining delta r ->
  remaining < 2 ^ 32 ->
  exists rest,
    flat_map (window_calls dev) (spec_chunk_plan addr remaining)
    = calls delta ++ rest
    /\ (r = 0%Z -> rest = []).
Proof.
  induction 1 as [addr | addr remaining s Hne Hs | addr remaining s g Hne Hs Hg
                 | addr remaining s g delta r Hne Hs Hg Hrun IH];
    intros Hrem.
  - exists []. split; [reflexivity | auto].
  - rewrite spec_chunk_plan_step by assumption.
    eexists. split; [reflexivity | lia].
  - rewrite spec_chunk_plan_step by assumption.
    eexists. split; [reflexivity|].
    destruct (Z.ltb_spec (ret g) 0); lia.
  - pose proof (chunk_of_min remaining) as Hm.
    rewrite sub32_exact in IH by lia.
    destruct (IH ltac:(lia)) as [rest [Hplan Hrest]].
    exists rest. split; [| exact Hrest].
    rewrite spec_chunk_plan_step by assumption.
    cbn [flat_map window_calls fst snd app calls map]. do 2 f_equal.
    etransitivity; [| exact Hplan]. apply plan_calls_congruent.
    unfold add32. now rewrite u32_mod_2_24.
Qed.

Lemma wire_windows_app cs cs' :
  wire_windows (cs ++ cs') = wire_windows cs ++ wire_windows cs'.
Proof. unfold wire_windows. apply flat_map_app. Qed.

Lemma wire_windows_calls dev ws :
  Forall (fun w => 1 <= snd w <= 1023) ws ->
  wire_windows (flat_map (window_calls dev) ws)
  = map (fun w => (fst w mod 2 ^ 24, snd w)) ws.
Proof.
  induction 1 as [| w ws Hc _ IH]; [reflexivity|].
  cbn [flat_map window_calls app map]. unfold wire_windows in *.
  cbn [flat_map]. rewrite wire_window_set, wire_window_get. cbn [app].
  rewrite IH. rewrite (N.mod_small (snd w))
    by (change (2 ^ 16) with 65536; lia).
  reflexivity.
Qed.

Section Order.

Variable env : environment.

(** X3: whatever the device answers, the transfers of a read are an initial
    part of the Set/Get pairs of the chunk plan, in the order of the plan:
    no transfer is repeated, left out or issued ahead of its turn, there
    are at most [2 * ceil(length / 1023)] of them, and all of them when the
    read returns 0. *)
Theorem snx_sf_read_in_plan_order dev addr length out lg :
  length < 2 ^ 32 ->
  exists delta rest,
    snd (snx_sf_read env dev addr length out lg) = lg ++ delta
    /\ flat_map (window_calls dev) (spec_chunk_plan addr length)
       = calls delta ++ rest
    /\ (fst (fst (snx_sf_read env dev addr length out lg)) = 0%Z -> rest = [])
    /\ (List.length delta <= 2 * N.to_nat (spec_chunk_count length))%nat.
Proof.
  intros Hlen.
  destruct (snx_sf_read_run env dev addr length out lg) as [delta [Hlog Hrun]].
  destruct (read_run_in_plan _ _ _ _ _ Hrun Hlen) as [rest [Hplan Hrest]].
  exists delta, rest. repeat split; try assumption.
  pose proof (plan_calls_length dev (spec_chunk_plan addr length)) as Hn.
  rewrite Hplan, length_app, spec_chunk_plan_length in Hn.
  unfold calls in Hn. rewrite length_map in Hn.
  unfold event in *. lia.
Qed.

(** X4: the windows that the Sets of a read carry on the wire are an initial
    part of the chunk plan with every start address reduced modulo [2 ^ 24]:
    window [k] is sent as [((addr + 1023 * k) mod 2 ^ 24, chunk)], for any
    32-bit [addr]; they are the whole plan when the read returns 0. *)
Theorem snx_sf_read_wire_windows dev addr length out lg :
  length < 2 ^ 32 ->
  exists delta later,
    snd (snx_sf_read env dev addr length out lg) = lg ++ delta
    /\ map (fun w => (fst w mod 2 ^ 24, snd w)) (spec_chunk_plan addr length)
       = wire_windows (calls delta) ++ later
    /\ (fst (fst (snx_sf_read env dev addr length out lg)) = 0%Z -> later = []).
Proof.
  intros Hlen.
  destruct (snx_sf_read_run env dev addr length out lg) as [delta [Hlog Hrun]].
  destruct (read_run_in_plan _ _ _ _ _ Hrun Hlen) as [rest [Hplan Hrest]].
  destruct (spec_chunk_plan_shape length addr) as [_ [_ Hsizes]].
  exists delta, (wire_windows rest). repeat split; try assumption.
  - rewrite <- wire_windows_app, <- Hplan. symmetry.
    now apply wire_windows_calls.
  - intros Hok. now rewrite (Hrest Hok).
Qed.

End Order.

(** A Get that comes back short ends the read of 2500 bytes within the six
    transfers of its plan. *)
Lemma snx_sf_read_in_plan_order_short_get :
  (List.length
     (snd (snx_sf_read short_get_env camera 0%N 2500%N (repeat 0%N 2500) []))
   <= 6)%nat.
Proof.
  destruct (snx_sf_read_in_plan_order short_get_env camera 0 2500
              (repeat 0 2500) [] ltac:(vm_compute; reflexivity))
    as [delta [rest [Hlog [_ [_ Hcount]]]]].
  rewrite Hlog. exact Hcount.
Defined.

(** A read of 1024 bytes from the last address of the 24-bit space: the
    second window is sent with the address wrapped to [0x3FE]. *)
Lemma snx_sf_read_wire_windows_wrap :
  wire_windows
    (calls (snd (snx_sf_read ideal_env camera 0xFFFFFF 1024 (repeat 0 1024) [])))
  = [(0xFFFFFF, 1023); (0x3FE, 1)].
Proof.
  destruct (snx_sf_read_wire_windows ideal_env camera 0xFFFFFF 1024
              (repeat 0 1024) [] ltac:(vm_compute; reflexivity))
    as [delta [later [Hlog [Hplan Hok]]]].
  rewrite (Hok ltac:(vm_compute; reflexivity)), app_nil_r in Hplan.
  rewrite Hlog. cbn [app]. rewrite <- Hplan. vm_compute. reflexivity.
Defined.

(** ** The code a failed read returns *)

Lemma read_run_last_event dev addr remaining delta r :
  read_run dev addr remaining delta r ->
  r = 0%Z
  \/ exists before e,
       delta = before ++ [e]
       /\ ((is_set e /\ ret (snd e) < 0 /\ r = ret (snd e))
           \/ (is_get e /\ ret (snd e) < 0 /\ r = ret (snd e))
           \/ (is_get e /\ 0 <= ret (snd e) /\ ret (snd e) <> requested e
               /\ r = -1))%Z.
Proof.
  induction 1 as [addr | addr remaining s Hne Hs | addr remaining s g Hne Hs Hg
                 | addr remaining s g delta r Hne Hs Hg Hrun IH].
  - now left.
  - right. eexists [], _. split; [reflexivity|].
    left. repeat split. exact Hs.
  - right. eexists [_], _. split; [reflexivity|]. right.
    destruct (Z.ltb_spec (ret g) 0) as [Hneg | Hpos].
    + left. repeat split. exact Hneg.
    + right. repeat split; [exact Hpos |].
      destruct Hg as [Hg | Hg]; [lia | exact Hg].
  - destruct IH as [-> | [before [e [-> Hlast]]]]; [now left|].
    right. eexists (_ :: _ :: before), e. split; [reflexivity | exact Hlast].
Qed.

Section ErrorCode.

Variable env : environment.

(** X5: a read that does not return 0 stops on its last transfer and takes
    its result from it: the code of a Set that returned a negative code, the
    code of a Get that returned a negative code, and -1 for a Get that
    returned a count other than the chunk it was asked for, too long as
    well as too short. *)
Theorem snx_sf_read_error_code dev addr length out lg :
  exists delta,
    snd (snx_sf_read env dev addr length out lg) = lg ++ delta
    /\ let r := fst (fst (snx_sf_read env dev addr length out lg)) in
       (r = 0%Z
        \/ exists before e,
             delta = before ++ [e]
             /\ ((is_set e /\ ret (snd e) < 0 /\ r = ret (snd e))
                 \/ (is_get e /\ ret (snd e) < 0 /\ r = ret (snd e))
                 \/ (is_get e /\ 0 <= ret (snd e)
                     /\ ret (snd e) <> requested e /\ r = -1))%Z).
Proof.
  destruct (snx_sf_read_run env dev addr length out lg) as [delta [Hlog Hrun]].
  exists delta. split; [exact Hlog|]. cbv zeta.
  eapply read_run_last_event; eassumption.
Qed.

End ErrorCode.

(** ** The payload and its window *)

Lemma read_payload_chunk_mod addr chunk :
  read_payload addr chunk = read_payload addr (chunk mod 2 ^ 16).
Proof.
  rewrite !read_payload_bytes. change (2 ^ 16) with 65536.
  assert (H1 : (chunk / 256) mod 256 = (chunk mod 65536 / 256) mod 256).
  { divmod chunk 65536 q r. divmod r 256 q1 r1. divmod q1 256 q2 r2.
    divmod chunk 256 q3 r3. divmod q3 256 q4 r4. lia. }
  assert (H0 : chunk mod 256 = (chunk mod 65536) mod 256).
  { divmod chunk 65536 q r. divmod r 256 q1 r1. divmod chunk 256 q2 r2. lia. }
  now rewrite H1, H0.
Qed.

(** X6: the payload of a Set is five byte values, and it determines the
    window exactly up to the widths of its fields: two windows have the
    same payload if and only if their addresses agree modulo [2 ^ 24] and
    their chunk lengths modulo [2 ^ 16]. *)
Theorem read_payload_determines_window addr chunk addr' chunk' :
  List.length (read_payload addr chunk) = 5%nat
  /\ Forall (fun b => b < 256) (read_payload addr chunk)
  /\ (read_payload addr chunk = read_payload addr' chunk'
      <-> addr mod 2 ^ 24 = addr' mod 2 ^ 24
          /\ chunk mod 2 ^ 16 = chunk' mod 2 ^ 16).
Proof.
  split; [reflexivity|]. split.
  - rewrite read_payload_bytes.
    repeat constructor; apply N.mod_lt; discriminate.
  - split.
    + intros H. rewrite !read_payload_bytes in H.
      injection H as H2 H1 H0 L1 L0. split.
      * rewrite <- (big_endian_3 addr), <- (big_endian_3 addr').
        now rewrite H2, H1, H0.
      * rewrite <- (big_endian_2 chunk), <- (big_endian_2 chunk').
        now rewrite L1, L0.
    + intros [Ha Hc].
      rewrite (read_payload_chunk_mod addr), (read_payload_chunk_mod addr').
      rewrite Hc. now apply read_payload_congruent.
Qed.

(** ** Open, then close *)

Lemma context_live_app c lg e :
  context_live c (lg ++ [e]) =
  match e with
  | (libusb_init, a) =>
      if ((ret a =? 0)%Z && (ptr a =? c))%bool then true
      else context_live c lg
  | (libusb_exit c', _) => if c' =? c then false else context_live c lg
  | _ => context_live c lg
  end.
Proof. unfold context_live. rewrite fold_left_app. reflexivity. Qed.

Lemma handle_open_app h lg e :
  handle_open h (lg ++ [e]) =
  match e with
  | (libusb_open_device_with_vid_pid _ _ _, a) =>
      if (negb (ptr a =? 0) && (ptr a =? h))%bool then true
      else handle_open h lg
  | (libusb_close h', _) => if h' =? h then false else handle_open h lg
  | _ => handle_open h lg
  end.
Proof. unfold handle_open. rewrite fold_left_app. reflexivity. Qed.

Section Balance.

Variable env : environment.

Lemma snx_close_releases dev lg :
  handle dev <> 0 ->
  ctx dev <> 0 ->
  let lg' := snd (snx_close env dev lg) in
  calls lg' = calls lg ++ [libusb_release_interface (handle dev) (vc_interface dev);
                           libusb_close (handle dev);
                           libusb_exit (ctx dev)]
  /\ context_live (ctx dev) lg' = false
  /\ handle_open (handle dev) lg' = false
  /\ (forall iface, iface_claimed (handle dev) iface lg' = false).
Proof.
  intros Hh Hc. cbv zeta. rewrite snx_close_cases. cbv zeta. cbn [snd].
  apply N.eqb_neq in Hh, Hc. rewrite Hh, Hc.
  repeat split.
  - unfold calls. rewrite !map_app. cbn [map fst]. now rewrite <- !app_assoc.
  - rewrite context_live_app. now rewrite N.eqb_refl.
  - rewrite handle_open_app, handle_open_app. now rewrite N.eqb_refl.
  - intros iface. rewrite iface_claimed_app, iface_claimed_app.
    now rewrite N.eqb_refl.
Qed.

(** X7: a session that [snx_open] has opened on a context that is not null
    is given back in full by [snx_close]: the two together make the six
    calls init, open, claim, release, close, exit in this order, and after
    them the context is not live, the handle is not open, the interface is
    not claimed and the session is zero. *)
Theorem snx_open_close_balanced dev vid pid vc_if unit_id lg :
  let opened := snx_open env dev vid pid vc_if unit_id lg in
  let dev' := snd (fst opened) in
  let closed := snx_close env dev' (snd opened) in
  fst (fst opened) = 0%Z ->
  ctx dev' <> 0 ->
  fst closed = dev_zero
  /\ calls (snd closed)
     = calls lg ++ [libusb_init;
                    libusb_open_device_with_vid_pid (ctx dev') vid pid;
                    libusb_claim_interface (handle dev') vc_if;
                    libusb_release_interface (handle dev') vc_if;
                    libusb_close (handle dev');
                    libusb_exit (ctx dev')]
  /\ context_live (ctx dev') (snd closed) = false
  /\ handle_open (handle dev') (snd closed) = false
  /\ iface_claimed (handle dev') vc_if (snd closed) = false.
Proof.
  cbv zeta. rewrite snx_open_cases. cbv zeta.
  set (i := env lg libusb_init).
  set (lg1 := lg ++ [(libusb_init, i)]).
  set (o := env lg1 (libusb_open_device_with_vid_pid (ptr i) vid pid)).
  set (lg2 := lg1 ++ [(libusb_open_device_with_vid_pid (ptr i) vid pid, o)]).
  destruct (negb (ret i =? 0)%Z); [discriminate|].
  destruct (N.eqb_spec (ptr o) 0) as [Ho | Ho]; [discriminate|].
  cbn [fst snd ctx handle]. intros _ Hc.
  set (dev' := mk_snx_device (ptr i) (ptr o) vc_if unit_id).
  destruct (snx_close_releases dev'
              (lg2 ++ [(libusb_claim_interface (ptr o) vc_if,
                        env lg2 (libusb_claim_interface (ptr o) vc_if))])
              Ho Hc) as [Hcalls [Hctx [Hh Hi]]].
  cbv zeta in *. cbn [ctx handle vc_interface dev'] in *.
  repeat split; try assumption.
  - now rewrite snx_close_cases.
  - rewrite Hcalls. subst lg2 lg1. unfold calls. rewrite !map_app.
    cbn [map fst]. now rewrite <- !app_assoc.
  - apply Hi.
Qed.

(** X8: when [libusb_init] has given a context that is not null and the
    device is then not found, [snx_open] returns -1 and leaves that context
    in the session although it has already called [libusb_exit] on it, so
    that an [snx_close] of this session calls [libusb_exit] on the same
    context a second time. *)
Theorem snx_close_after_failed_open dev vid pid vc_if unit_id lg :
  let i := env lg libusb_init in
  let opened := snx_open env dev vid pid vc_if unit_id lg in
  ret i = 0%Z ->
  ptr i <> 0 ->
  fst (fst opened) = (-1)%Z ->
  snd (fst opened) = mk_snx_device (ptr i) 0 0 0
  /\ calls (snd (snx_close env (snd (fst opened)) (snd opened)))
     = calls lg ++ [libusb_init;
                    libusb_open_device_with_vid_pid (ptr i) vid pid;
                    libusb_exit (ptr i);
                    libusb_exit (ptr i)].
Proof.
  cbv zeta. rewrite snx_open_cases. cbv zeta. intros Hi Hc.
  rewrite Hi. cbn [Z.eqb negb].
  destruct (ptr (env (lg ++ [(libusb_init, env lg libusb_init)])
                   (libusb_open_device_with_vid_pid
                      (ptr (env lg libusb_init)) vid pid)) =? 0);
    [| discriminate].
  cbn [fst snd]. intros _. split; [reflexivity|].
  rewrite snx_close_cases. cbv zeta. cbn [snd ctx handle N.eqb].
  apply N.eqb_neq in Hc. rewrite Hc.
  unfold calls. rewrite !map_app. cbn [map fst]. now rewrite <- !app_assoc.
Qed.

End Balance.

(** On the camera in order, open and close leave nothing behind. *)
Lemma snx_open_close_balanced_camera :
  calls (snd (snx_close ideal_env camera
                (snd (snx_open ideal_env dev_zero 0x0C45 0x6366 0 3 []))))
  = [libusb_init;
     libusb_open_device_with_vid_pid 0x1000 0x0C45 0x6366;
     libusb_claim_interface 0x2000 0;
     libusb_release_interface 0x2000 0;
     libusb_close 0x2000;
     libusb_exit 0x1000]
  /\ context_live 0x1000
       (snd (snx_close ideal_env camera
               (snd (snx_open ideal_env dev_zero 0x0C45 0x6366 0 3 []))))
     = false.
Proof.
  destruct (snx_open_close_balanced ideal_env dev_zero 0x0C45 0x6366 0 3 []
              ltac:(vm_compute; reflexivity) ltac:(vm_compute; discriminate))
    as [_ [Hcalls [Hctx _]]].
  split; [exact Hcalls | exact Hctx].
Defined.

(** No camera attached: the context [0x1000] is exited by [snx_open] and
    again by [snx_close]. *)
Lemma snx_close_after_failed_open_no_device :
  calls (snd (snx_close no_device_env
                (snd (fst (snx_open no_device_env dev_zero 0x0C45 0x6366 0 3 [])))
                (snd (snx_open no_device_env dev_zero 0x0C45 0x6366 0 3 []))))
  = [libusb_init;
     libusb_open_device_with_vid_pid 0x1000 0x0C45 0x6366;
     libusb_exit 0x1000;
     libusb_exit 0x1000].
Proof.
  exact (proj2 (snx_close_after_failed_open no_device_env dev_zero
                  0x0C45 0x6366 0 3 []
                  ltac:(vm_compute; reflexivity)
                  ltac:(vm_compute; discriminate)
                  ltac:(vm_compute; reflexivity))).
Defined.

(** ** The dump, call by call *)

Lemma within_limits_no_file_or_heap cs :
  Forall within_limits cs ->
  filter is_file_call cs = [] /\ filter is_heap_call cs = []
  /\ filter is_usb_call cs = cs.
Proof.
  induction 1 as [| c cs [w [Hc _]] _ [IHf [IHh IHu]]]; [auto|].
  destruct c; try discriminate. cbn. now rewrite IHf, IHh, IHu.
Qed.

Lemma file_calls_app lg lg' :
  file_calls (lg ++ lg') = file_calls lg ++ file_calls lg'.
Proof. unfold file_calls, calls. now rewrite map_app, filter_app. Qed.

Lemma heap_calls_app lg lg' :
  heap_calls (lg ++ lg') = heap_calls lg ++ heap_calls lg'.
Proof. unfold heap_calls, calls. now rewrite map_app, filter_app. Qed.

Lemma fresh_block_length a size :
  List.length (fresh_block a size) = N.to_nat size.
Proof.
  unfold fresh_block. rewrite length_firstn, length_app, repeat_length. lia.
Qed.

Section DumpCalls.

Variable env : environment.

Lemma snx_sf_read_no_file_or_heap dev addr length out lg :
  file_calls (snd (snx_sf_read env dev addr length out lg)) = file_calls lg
  /\ heap_calls (snd (snx_sf_read env dev addr length out lg)) = heap_calls lg.
Proof.
  destruct (snx_sf_read_run env dev addr length out lg) as [delta [Hlog Hrun]].
  apply read_run_within_limits in Hrun.
  destruct (within_limits_no_file_or_heap _ Hrun) as [Hf [Hh _]].
  rewrite Hlog, file_calls_app, heap_calls_app.
  unfold file_calls at 2, heap_calls at 2. rewrite Hf, Hh.
  now rewrite !app_nil_r.
Qed.

Lemma snx_dump_firmware_log dev addr length path lg :
  let lg1 := after_call env (malloc length) lg in
  let m := env lg (malloc length) in
  let rd := snx_sf_read env dev addr length (fresh_block m length) lg1 in
  let f := env (snd rd) (fopen path "wb") in
  let lg3 := after_call env (fopen path "wb") (snd rd) in
  let write := fwrite (snd (fst rd)) 1 length (ptr f) in
  snx_dump_firmware env dev addr length path lg =
  if ptr m =? 0 then ((-1)%Z, lg1)
  else if (fst (fst rd) =? 0)%Z
       then if ptr f =? 0
            then ((-1)%Z, after_call env (free (ptr m)) lg3)
            else (0%Z,
                  after_call env (free (ptr m))
                    (after_call env (fclose (ptr f))
                       (after_call env write lg3)))
       else (fst (fst rd), after_call env (free (ptr m)) (snd rd)).
Proof.
  cbv zeta. unfold snx_dump_firmware, mbind, mret, extern, after_call.
  destruct (ptr (env lg (malloc length)) =? 0); [reflexivity|].
  pose proof (sf_read_loop_bounds env dev addr length 0
                (fresh_block (env lg (malloc length)) length)
                (lg ++ [(malloc length, env lg (malloc length))])) as [Hsize _].
  fold (snx_sf_read env dev addr length
          (fresh_block (env lg (malloc length)) length)
          (lg ++ [(malloc length, env lg (malloc length))])) in Hsize.
  destruct (snx_sf_read env dev addr length
              (fresh_block (env lg (malloc length)) length)
              (lg ++ [(malloc length, env lg (malloc length))]))
    as [[r content] lg2].
  cbn [fst snd] in *. rewrite fresh_block_length in Hsize.
  destruct (Z.eqb_spec r 0) as [-> | Hr]; [| reflexivity].
  destruct (ptr (env lg2 (fopen path "wb")) =? 0); [reflexivity|].
  cbn [negb]. rewrite N.mul_1_l, firstn_all2 by lia. reflexivity.
Qed.

(** X9: [snx_dump_firmware] returns 0 exactly when [malloc] gave a block,
    the read returned 0 and [fopen] gave a stream; otherwise it returns a
    negative value: -1 when there is no block or no stream, and the code of
    the read, unchanged, when the read failed. *)
Theorem snx_dump_firmware_result dev addr length path lg :
  let m := env lg (malloc length) in
  let rd := snx_sf_read env dev addr length (fresh_block m length)
              (after_call env (malloc length) lg) in
  let f := env (snd rd) (fopen path "wb") in
  let r := fst (snx_dump_firmware env dev addr length path lg) in
  (r = 0%Z <-> ptr m <> 0 /\ fst (fst rd) = 0%Z /\ ptr f <> 0)
  /\ (r = 0 \/ r < 0)%Z
  /\ (ptr m = 0 -> r = (-1)%Z)
  /\ (ptr m <> 0 -> fst (fst rd) <> 0%Z -> r = fst (fst rd))
  /\ (ptr m <> 0 -> fst (fst rd) = 0%Z -> ptr f = 0 -> r = (-1)%Z).
Proof.
  cbv zeta. rewrite snx_dump_firmware_log. cbv zeta.
  set (m := env lg (malloc length)).
  set (rd := snx_sf_read env dev addr length (fresh_block m length)
               (after_call env (malloc length) lg)).
  set (f := env (snd rd) (fopen path "wb")).
  assert (Hrd : (fst (fst rd) = 0 \/ fst (fst rd) < 0)%Z).
  { subst rd.
    destruct (snx_sf_read_run env dev addr length (fresh_block m length)
                (after_call env (malloc length) lg)) as [delta [_ Hrun]].
    eapply read_run_result; eassumption. }
  destruct (N.eqb_spec (ptr m) 0) as [Hm | Hm];
    [| destruct (Z.eqb_spec (fst (fst rd)) 0) as [Hr | Hr];
       [destruct (N.eqb_spec (ptr f) 0) as [Hf | Hf] |]];
    cbn [fst]; repeat split; intros; try tauto; try lia;
    try discriminate.
Qed.

(** X10: of the heap, [snx_dump_firmware] calls [malloc(length)] once and,
    if that gave a block, [free] once, on that block and as its last call.
    Of files, it calls nothing unless the read returned 0; then it opens
    the path for binary writing and, if that gave a stream, writes the
    whole buffer, [length] bytes, in one [fwrite] and closes the stream. *)
Theorem snx_dump_firmware_calls dev addr length path lg :
  let m := env lg (malloc length) in
  let rd := snx_sf_read env dev addr length (fresh_block m length)
              (after_call env (malloc length) lg) in
  let f := env (snd rd) (fopen path "wb") in
  let final := snd (snx_dump_firmware env dev addr length path lg) in
  heap_calls final
  = heap_calls lg
    ++ malloc length :: (if ptr m =? 0 then [] else [free (ptr m)])
  /\ (ptr m <> 0 ->
      exists before, final = after_call env (free (ptr m)) before)
  /\ file_calls final
     = file_calls lg
       ++ (if (ptr m =? 0) || negb (fst (fst rd) =? 0)%Z then []
           else fopen path "wb"
                :: (if ptr f =? 0 then []
                    else [fwrite (snd (fst rd)) 1 length (ptr f);
                          fclose (ptr f)]))
  /\ List.length (snd (fst rd)) = N.to_nat length.
Proof.
  cbv zeta. rewrite snx_dump_firmware_log. cbv zeta.
  set (m := env lg (malloc length)).
  set (lg1 := after_call env (malloc length) lg).
  set (rd := snx_sf_read env dev addr length (fresh_block m length) lg1).
  set (f := env (snd rd) (fopen path "wb")).
  destruct (snx_sf_read_no_file_or_heap dev addr length
              (fresh_block m length) lg1) as [Hfile Hheap].
  fold rd in Hfile, Hheap.
  assert (Hfile1 : file_calls lg1 = file_calls lg).
  { subst lg1. unfold after_call. rewrite file_calls_app. cbn.
    apply app_nil_r. }
  assert (Hheap1 : heap_calls lg1 = heap_calls lg ++ [malloc length]).
  { subst lg1. unfold after_call. now rewrite heap_calls_app. }
  rewrite Hfile1 in Hfile. rewrite Hheap1 in Hheap.
  assert (Hsize : List.length (snd (fst rd)) = N.to_nat length).
  { subst rd. unfold snx_sf_read.
    destruct (sf_read_loop_bounds env dev addr length 0
                (fresh_block m length) lg1) as [Hl _].
    rewrite Hl. apply fresh_block_length. }
  destruct (N.eqb_spec (ptr m) 0) as [Hm | Hm];
    [| destruct (Z.eqb_spec (fst (fst rd)) 0) as [Hr | Hr];
       [destruct (N.eqb_spec (ptr f) 0) as [Hf | Hf] |]];
    cbn [fst snd orb negb]; (split; [| split; [| split; [| exact Hsize]]]);
    try (intros Hm'; try contradiction; eexists; reflexivity);
    unfold after_call;
    rewrite ?heap_calls_app, ?file_calls_app, ?Hheap, ?Hfile, ?Hheap1, ?Hfile1;
    cbn; rewrite <- ?app_assoc, ?app_nil_r; reflexivity.
Qed.

End DumpCalls.

(** ** The program as a whole *)

Section WholeProgram.

Variable env : environment.

Lemma snx_open_success dev vid pid vc_if unit_id lg :
  fst (fst (snx_open env dev vid pid vc_if unit_id lg)) = 0%Z ->
  handle (snd (fst (snx_open env dev vid pid vc_if unit_id lg))) <> 0
  /\ vc_interface (snd (fst (snx_open env dev vid pid vc_if unit_id lg))) = vc_if
  /\ xu_id (snd (fst (snx_open env dev vid pid vc_if unit_id lg))) = unit_id.
Proof.
  rewrite snx_open_cases. cbv zeta.
  destruct (negb _); [discriminate|].
  destruct (N.eqb_spec
              (ptr (env (lg ++ [(libusb_init, env lg libusb_init)])
                      (libusb_open_device_with_vid_pid
                         (ptr (env lg libusb_init)) vid pid))) 0);
    [discriminate|].
  cbn [fst snd handle vc_interface xu_id]. auto.
Qed.



(** X11: the exit status of [main] is 0 when there is exactly one argument
    and the device opens, and 1 in every other case: it depends on nothing
    else, neither on the argument itself nor on what the transfers, the
    allocation or the file did. *)
Theorem main_exit_status argv0 args lg :
  fst (main env argv0 args lg)
  = if (Nat.eqb (List.length args) 1
        && (fst (fst (snx_open env dev_zero 0x0C45 0x6366 0 3 lg)) =? 0)%Z)%bool
    then 0%Z else 1%Z.
Proof.
  destruct args as [| cmd [| cmd' args]].
  - now rewrite main_wrong_count.
  - rewrite main_one_argument. cbv zeta. cbn [List.length Nat.eqb andb].
    now destruct (_ =? 0)%Z.
  - now rewrite main_wrong_count.
Qed.

(** X12: when [main] is given one argument and opens the device on a context
    that is not null, it ends, whatever the command was and however it
    went, with release, close and exit on that session, and leaves the
    context not live, the handle not open and the interface not claimed. *)
Theorem main_releases_session argv0 cmd lg :
  let opened := snx_open env dev_zero 0x0C45 0x6366 0 3 lg in
  let dev := snd (fst opened) in
  let final := snd (main env argv0 [cmd] lg) in
  fst (fst opened) = 0%Z ->
  ctx dev <> 0 ->
  (exists before,
      calls final
      = calls before ++ [libusb_release_interface (handle dev) 0;
                         libusb_close (handle dev);
                         libusb_exit (ctx dev)])
  /\ context_live (ctx dev) final = false
  /\ handle_open (handle dev) final = false
  /\ iface_claimed (handle dev) 0 final = false.
Proof.
  cbv zeta. intros Hopen Hctx. rewrite main_one_argument. cbv zeta.
  destruct (snx_open_success _ _ _ _ _ _ Hopen) as [Hh [Hvc _]].
  rewrite Hopen. cbn [Z.eqb negb snd].
  match goal with
  | |- context [snx_close env ?d ?l] =>
      destruct (snx_close_releases env d l Hh Hctx) as [Hcalls [Hc [Ho Hi]]]
  end.
  cbv zeta in *. rewrite Hvc in Hcalls.
  repeat split; try assumption.
  - eexists. exact Hcalls.
  - apply Hi.
Qed.


End WholeProgram.


(** "read" against transfers that time out still ends with the session
    given back. *)
Lemma main_releases_session_timeout :
  context_live 0x1000
    (snd (main set_timeout_env "snx_flash.exe" ["read"%string] [])) = false.
Proof.
  exact (proj1 (proj2 (main_releases_session set_timeout_env "snx_flash.exe"
                         "read" []
                         ltac:(vm_compute; reflexivity)
                         ltac:(vm_compute; discriminate)))).
Defined.

(** ** What the program puts on the bus *)

Lemma within_limits_transfers cs :
  Forall within_limits cs -> filter is_control_transfer cs = cs.
Proof.
  induction 1 as [| c cs [w [Hc _]] _ IH]; [reflexivity|].
  destruct c; try discriminate. cbn. now rewrite IH.
Qed.

Section Bus.

Variable env : environment.

Lemma transfers_after_call c lg :
  transfers (after_call env c lg)
  = transfers lg ++ filter is_control_transfer [c].
Proof. unfold after_call. now rewrite transfers_app. Qed.

Lemma snx_sf_read_transfers dev addr length out lg :
  length < 2 ^ 32 ->
  exists issued rest,
    transfers (snd (snx_sf_read env dev addr length out lg))
    = transfers lg ++ issued
    /\ flat_map (window_calls dev) (spec_chunk_plan addr length)
       = issued ++ rest.
Proof.
  intros Hlen.
  destruct (snx_sf_read_run env dev addr length out lg) as [delta [Hlog Hrun]].
  destruct (read_run_in_plan _ _ _ _ _ Hrun Hlen) as [rest [Hplan _]].
  exists (calls delta), rest. split; [| exact Hplan].
  rewrite Hlog, transfers_app. f_equal.
  apply within_limits_transfers. eapply read_run_within_limits; eassumption.
Qed.

Lemma snx_dump_firmware_transfers dev addr length path lg :
  length < 2 ^ 32 ->
  exists issued rest,
    transfers (snd (snx_dump_firmware env dev addr length path lg))
    = transfers lg ++ issued
    /\ flat_map (window_calls dev) (spec_chunk_plan addr length)
       = issued ++ rest.
Proof.
  intros Hlen. rewrite snx_dump_firmware_log. cbv zeta.
  set (m := env lg (malloc length)).
  set (lg1 := after_call env (malloc length) lg).
  assert (H1 : transfers lg1 = transfers lg).
  { subst lg1. unfold after_call. rewrite transfers_app. apply app_nil_r. }
  destruct (snx_sf_read_transfers dev addr length (fresh_block m length) lg1 Hlen)
    as [issued [rest [Hrd Hplan]]].
  rewrite H1 in Hrd.
  set (rd := snx_sf_read env dev addr length (fresh_block m length) lg1) in *.
  destruct (ptr m =? 0).
  - exists [], (flat_map (window_calls dev) (spec_chunk_plan addr length)).
    cbn [snd app]. now rewrite H1, app_nil_r.
  - exists issued, rest. split; [| exact Hplan].
    destruct (fst (fst rd) =? 0)%Z;
      [destruct (ptr (env (snd rd) (fopen path "wb")) =? 0) |];
      cbn [snd]; rewrite !transfers_after_call, Hrd;
      cbn [filter is_control_transfer]; now rewrite ?app_nil_r.
Qed.

(** X14: once the device is open, the control transfers of [main] are an
    initial part of the Set/Get pairs of one read from address 0 on the
    opened session, interface 0 and unit 3: of 0x20000 bytes for "dump", of
    256 bytes for "read", and none at all for any other command. *)
Theorem main_transfers argv0 cmd lg :
  let opened := snx_open env dev_zero 0x0C45 0x6366 0 3 lg in
  let dev := snd (fst opened) in
  fst (fst opened) = 0%Z ->
  vc_interface dev = 0 /\ xu_id dev = 3
  /\ exists issued rest,
       transfers (snd (main env argv0 [cmd] lg)) = transfers lg ++ issued
       /\ flat_map (window_calls dev) (spec_chunk_plan 0 (command_length cmd))
          = issued ++ rest.
Proof.
  cbv zeta. intros Hopen.
  destruct (snx_open_success env _ _ _ _ _ _ Hopen) as [_ [Hvc Hxu]].
  split; [exact Hvc|]. split; [exact Hxu|].
  rewrite main_one_argument. cbv zeta. rewrite Hopen. cbn [Z.eqb negb snd].
  rewrite snx_close_transfers. unfold command_length.
  set (dev := snd (fst (snx_open env dev_zero 0x0C45 0x6366 0 3 lg))).
  set (lg1 := snd (snx_open env dev_zero 0x0C45 0x6366 0 3 lg)).
  assert (H1 : transfers lg1 = transfers lg) by apply snx_open_transfers.
  destruct (String.eqb cmd "dump").
  - destruct (snx_dump_firmware_transfers dev 0 0x20000 "firmware_dump.bin" lg1
                ltac:(reflexivity)) as [issued [rest [Hd Hplan]]].
    exists issued, rest. split; [| exact Hplan].
    destruct (Z.eqb (fst (snx_dump_firmware env dev 0 0x20000
                            "firmware_dump.bin" lg1)) 0);
      rewrite transfers_after_call, Hd, H1; apply app_nil_r.
  - destruct (String.eqb cmd "read").
    + destruct (snx_sf_read_transfers dev 0 256 (repeat 0 256) lg1
                  ltac:(reflexivity)) as [issued [rest [Hr Hplan]]].
      exists issued, rest. split; [| exact Hplan].
      destruct (Z.eqb (fst (fst (snx_sf_read env dev 0 256 (repeat 0 256) lg1))) 0);
        rewrite transfers_after_call, Hr, H1; apply app_nil_r.
    + exists [], []. split; [| reflexivity].
      rewrite transfers_after_call, H1. cbn [app]. now rewrite !app_nil_r.
Qed.

End Bus.

(** "read" on the camera in order: what goes over the bus is an initial part
    of the one pair for the window [(0, 256)]. *)
Lemma main_transfers_read :
  exists issued rest,
    transfers (snd (main ideal_env "snx_flash.exe" ["read"%string] [])) = issued
    /\ [read_set_call camera 0 256; read_get_call camera 256] = issued ++ rest.
Proof.
  destruct (main_transfers ideal_env "snx_flash.exe" "read" []
              ltac:(vm_compute; reflexivity))
    as [_ [_ [issued [rest [Hbus Hplan]]]]].
  exists issued, rest. split; [exact Hbus | exact Hplan].
Defined.
